(** * The staged nested-document query [task_3_1]

    The program is one aggregation pipeline of thirteen stages, handed to a
    document store.  The pipeline is data: every stage is a literal.  The
    development therefore has two layers.

    - [Bson], [Query], [Agg], [Stage]: the operators of the store that the
      pipeline uses ([$match], [$project], [$unwind], [$lookup], [$group],
      [$sort], and the query and expression operators below them), each as an
      executable function on documents.
    - [Task]: the pipeline of [task_3_1], stage by stage in the order and with
      the constants of the source, and the function around it (the console
      timer, the awaited call, the returned array).

    [Spec], [Shape] and [Cases] name the predicates of the statements and
    [Fixture] the concrete inputs.  The properties follow: first the lemmas,
    by operator, then the claims, then further properties of the stages and
    of the function around them.

    The store is an external collaborator.  What it leaves open (the order
    of the groups, the order of rows with equal sort keys) and what it may
    refuse for want of resources is not decided by the pipeline; the
    operators below make one choice and never refuse, and the statements
    say where they do not depend on it.  Whether two runs on the same data
    agree is a matter of the store and is not stated here.

    Numbers are integers ([Z]); the store's doubles are left out.  Documents
    are association lists, because field order is observable. *)

From Stdlib Require Import List ZArith String Bool Lia Ascii Sorted Permutation.
From Stdlib Require Import OrderedTypeEx.
Import ListNotations.
Local Open Scope string_scope.
Local Open Scope list_scope.

(** ** Documents and values *)

Module Bson.

#[local] Set Warnings "-register-all".

Inductive value : Type :=
| VNull
| VBool (b : bool)
| VNum (n : Z)
| VStr (s : string)
| VOid (hex : string)
| VDate (ms : Z)
| VArr (vs : list value)
| VDoc (fs : list (string * value)).

Definition doc : Type := list (string * value).
Definition path : Type := list string.

(** Induction over values that reaches inside arrays and documents. *)
Section ValueInd.
Variable P : value -> Prop.
Hypothesis HNull : P VNull.
Hypothesis HBool : forall b, P (VBool b).
Hypothesis HNum : forall n, P (VNum n).
Hypothesis HStr : forall s, P (VStr s).
Hypothesis HOid : forall s, P (VOid s).
Hypothesis HDate : forall n, P (VDate n).
Hypothesis HArr : forall vs, Forall P vs -> P (VArr vs).
Hypothesis HDoc : forall fs, Forall (fun kv => P (snd kv)) fs -> P (VDoc fs).

Fixpoint value_deep_ind (v : value) : P v :=
  match v with
  | VNull => HNull
  | VBool b => HBool b
  | VNum n => HNum n
  | VStr s => HStr s
  | VOid s => HOid s
  | VDate n => HDate n
  | VArr vs =>
      HArr vs
        ((fix go (l : list value) : Forall P l :=
            match l with
            | [] => Forall_nil P
            | x :: l' => Forall_cons x (value_deep_ind x) (go l')
            end) vs)
  | VDoc fs =>
      HDoc fs
        ((fix go (l : list (string * value)) : Forall (fun kv => P (snd kv)) l :=
            match l with
            | [] => Forall_nil _
            | kv :: l' => Forall_cons kv (value_deep_ind (snd kv)) (go l')
            end) fs)
  end.
End ValueInd.

(** First binding of a field name, as a document reader sees it. *)
Fixpoint field (k : string) (fs : doc) : option value :=
  match fs with
  | [] => None
  | (k', v) :: fs' => if String.eqb k k' then Some v else field k fs'
  end.

(** Replace the first binding of [k], or append one. *)
Fixpoint set_field (k : string) (v : value) (fs : doc) : doc :=
  match fs with
  | [] => [(k, v)]
  | (k', v') :: fs' =>
      if String.eqb k k' then (k, v) :: fs' else (k', v') :: set_field k v fs'
  end.

(** The store's canonical type order: null, numbers, strings, objects,
    arrays, object ids, booleans, dates. *)
Definition rank (v : value) : nat :=
  match v with
  | VNull => 5
  | VNum _ => 10
  | VStr _ => 15
  | VDoc _ => 20
  | VArr _ => 25
  | VOid _ => 35
  | VBool _ => 40
  | VDate _ => 45
  end.

Definition then_cmp (c : comparison) (k : comparison) : comparison :=
  match c with Eq => k | _ => c end.

(** Total order on values: by type rank, then inside the type.  Arrays
    compare element by element, documents field by field (type of the
    value, then field name, then value). *)
Fixpoint compare_value (a b : value) {struct a} : comparison :=
  match a, b with
  | VNull, VNull => Eq
  | VBool x, VBool y => Bool.compare x y
  | VNum x, VNum y => Z.compare x y
  | VStr x, VStr y => String.compare x y
  | VOid x, VOid y => String.compare x y
  | VDate x, VDate y => Z.compare x y
  | VArr xs, VArr ys =>
      (fix go (xs ys : list value) {struct xs} : comparison :=
         match xs, ys with
         | [], [] => Eq
         | [], _ :: _ => Lt
         | _ :: _, [] => Gt
         | x :: xs', y :: ys' => then_cmp (compare_value x y) (go xs' ys')
         end) xs ys
  | VDoc xs, VDoc ys =>
      (fix go (xs ys : list (string * value)) {struct xs} : comparison :=
         match xs, ys with
         | [], [] => Eq
         | [], _ :: _ => Lt
         | _ :: _, [] => Gt
         | (kx, x) :: xs', (ky, y) :: ys' =>
             then_cmp (Nat.compare (rank x) (rank y))
               (then_cmp (String.compare kx ky)
                  (then_cmp (compare_value x y) (go xs' ys')))
         end) xs ys
  | _, _ => Nat.compare (rank a) (rank b)
  end.

Definition is_eq (c : comparison) : bool :=
  match c with Eq => true | _ => false end.

Definition value_eqb (a b : value) : bool := is_eq (compare_value a b).

(** A value that may be missing: [None] is the store's "no such field".
    In expressions a missing value sorts below every value, null included. *)
Definition compare_opt (a b : option value) : comparison :=
  match a, b with
  | None, None => Eq
  | None, Some _ => Lt
  | Some _, None => Gt
  | Some x, Some y => compare_value x y
  end.

Definition is_null (v : value) : bool :=
  match v with VNull => true | _ => false end.

End Bson.

(** ** The query language of [$match] *)

Module Query.
Import Bson.

Definition query : Type := doc -> bool.

(** Values reached by a dotted path.  A sub-document is entered; an array met
    before the last component is traversed element by element, entering only
    the elements that are documents; anything else ends the walk.  The value
    under the last component is returned as it is.  (Numeric path components
    that index into arrays are not in the pipeline and are left out.) *)
Fixpoint leaves (p : path) (d : doc) : list value :=
  match p with
  | [] => []
  | k :: rest =>
      match field k d with
      | None => []
      | Some v =>
          match rest with
          | [] => [v]
          | _ :: _ =>
              match v with
              | VDoc fs => leaves rest fs
              | VArr vs =>
                  flat_map
                    (fun e => match e with VDoc fs => leaves rest fs | _ => [] end)
                    vs
              | _ => []
              end
          end
      end
  end.

(** A comparison operator looks at the value under the path and, when that
    value is an array, at each of its elements too. *)
Definition with_elems (v : value) : list value :=
  v :: match v with VArr es => es | _ => [] end.

Definition holds (f : value -> bool) (p : path) : query :=
  fun d => existsb (fun v => existsb f (with_elems v)) (leaves p d).

Definition no_leaf (p : path) (d : doc) : bool :=
  match leaves p d with [] => true | _ :: _ => false end.

(** [{p: lit}].  Comparing with null also matches a document that has no
    such field; this is exact for one-component paths, the only place where
    the pipeline compares with null. *)
Definition qEq (p : path) (lit : value) : query :=
  fun d => holds (value_eqb lit) p d || (is_null lit && no_leaf p d).

(** [{p: {$ne: lit}}] *)
Definition qNe (p : path) (lit : value) : query :=
  fun d => negb (qEq p lit d).

(** [{p: {$in: lits}}] *)
Definition qIn (p : path) (lits : list value) : query :=
  fun d => holds (fun v => existsb (value_eqb v) lits) p d
           || (existsb is_null lits && no_leaf p d).

Definition same_rank (a b : value) : bool := Nat.eqb (rank a) (rank b).

(** [{p: {$lt: lit}}] and [{p: {$gte: lit}}]: only values of the type of
    [lit] are compared. *)
Definition qLt (p : path) (lit : value) : query :=
  holds (fun v => same_rank v lit
                  && match compare_value v lit with Lt => true | _ => false end) p.

Definition qGte (p : path) (lit : value) : query :=
  holds (fun v => same_rank v lit
                  && match compare_value v lit with Lt => false | _ => true end) p.

(** [{p: {$elemMatch: q}}]: the value under the path is an array and one of
    its elements satisfies [q].  Every [$elemMatch] of the pipeline asks for a
    named field of the element, so only elements that are documents can
    satisfy it. *)
Definition qElemMatch (p : path) (q : query) : query :=
  fun d =>
    existsb
      (fun v =>
         match v with
         | VArr es =>
             existsb (fun e => match e with VDoc fs => q fs | _ => false end) es
         | _ => false
         end)
      (leaves p d).

Definition qAnd (qs : list query) : query := fun d => forallb (fun q => q d) qs.
Definition qOr (qs : list query) : query := fun d => existsb (fun q => q d) qs.
Definition qNor (qs : list query) : query := fun d => negb (qOr qs d).

End Query.

(** ** Aggregation expressions *)

Module Agg.
Import Bson.

(** A run either yields a result or is rejected by the store. *)
Inductive res (A : Type) : Type :=
| Ok (a : A)
| Err (msg : string).
Arguments Ok {A} a.
Arguments Err {A} msg.

Definition bind {A B : Type} (m : res A) (k : A -> res B) : res B :=
  match m with
  | Ok a => k a
  | Err e => Err e
  end.

Notation "x <- m ;; k" := (bind m (fun x => k))
  (at level 61, m at next level, right associativity).

Fixpoint mapM {A B : Type} (f : A -> res B) (l : list A) : res (list B) :=
  match l with
  | [] => Ok []
  | a :: l' => b <- f a ;; bs <- mapM f l' ;; Ok (b :: bs)
  end.

(** An expression is evaluated against the current document; the result may
    be missing ([None]). *)
Definition expr : Type := doc -> res (option value).

(** ["$a.b.c"]: sub-documents are entered; an array met before the last
    component yields the array of the results of its document elements,
    leaving out the missing ones. *)
Fixpoint get_in (p : path) (d : doc) : option value :=
  match p with
  | [] => None
  | k :: rest =>
      match rest with
      | [] => field k d
      | _ :: _ =>
          match field k d with
          | Some (VDoc fs) => get_in rest fs
          | Some (VArr vs) =>
              Some (VArr
                (flat_map
                   (fun e =>
                      match e with
                      | VDoc fs =>
                          match get_in rest fs with Some x => [x] | None => [] end
                      | _ => []
                      end) vs))
          | _ => None
          end
      end
  end.

Definition eField (p : path) : expr := fun d => Ok (get_in p d).
Definition eLit (v : value) : expr := fun _ => Ok (Some v).
(** ["$$v"]: a variable bound by [let], already evaluated. *)
Definition eVar (v : option value) : expr := fun _ => Ok v.

Definition truthy (o : option value) : bool :=
  match o with
  | None => false
  | Some VNull => false
  | Some (VBool b) => b
  | Some (VNum n) => negb (Z.eqb n 0)
  | Some _ => true
  end.

Definition nullish (o : option value) : bool :=
  match o with
  | None => true
  | Some v => is_null v
  end.

Definition eIfNull (a b : expr) : expr :=
  fun d => x <- a d ;; if nullish x then b d else Ok x.

Definition eEq (a b : expr) : expr :=
  fun d => x <- a d ;; y <- b d ;; Ok (Some (VBool (is_eq (compare_opt x y)))).

Definition eCmp (a b : expr) : expr :=
  fun d =>
    x <- a d ;; y <- b d ;;
    Ok (Some (VNum (match compare_opt x y with
                    | Lt => (-1)%Z
                    | Eq => 0%Z
                    | Gt => 1%Z
                    end))).

(** [$and] and [$or] stop at the first operand that decides the result. *)
Fixpoint and_list (es : list expr) (d : doc) : res bool :=
  match es with
  | [] => Ok true
  | e :: es' => x <- e d ;; if truthy x then and_list es' d else Ok false
  end.

Fixpoint or_list (es : list expr) (d : doc) : res bool :=
  match es with
  | [] => Ok false
  | e :: es' => x <- e d ;; if truthy x then Ok true else or_list es' d
  end.

Definition eAnd (es : list expr) : expr :=
  fun d => b <- and_list es d ;; Ok (Some (VBool b)).
Definition eOr (es : list expr) : expr :=
  fun d => b <- or_list es d ;; Ok (Some (VBool b)).

(** [{$arrayElemAt: [a, i]}] with a literal index: null when [a] is null or
    missing, missing when the index is out of bounds, an error when [a] is
    not an array.  A negative index counts from the end. *)
Definition elem_at (vs : list value) (i : Z) : option value :=
  if (0 <=? i)%Z then nth_error vs (Z.to_nat i)
  else if (Z.of_nat (List.length vs) + i <? 0)%Z then None
  else nth_error vs (Z.to_nat (Z.of_nat (List.length vs) + i)).

Definition eArrayElemAt (a : expr) (i : Z) : expr :=
  fun d =>
    x <- a d ;;
    match x with
    | None => Ok (Some VNull)
    | Some VNull => Ok (Some VNull)
    | Some (VArr vs) => Ok (elem_at vs i)
    | Some _ => Err "$arrayElemAt's first argument must be an array"
    end.

(** An object literal of expressions: a field whose expression is missing is
    left out of the object. *)
Fixpoint obj_fields (fs : list (string * expr)) (d : doc) : res doc :=
  match fs with
  | [] => Ok []
  | (k, e) :: fs' =>
      x <- e d ;;
      rest <- obj_fields fs' d ;;
      Ok (match x with Some v => (k, v) :: rest | None => rest end)
  end.

Definition eObj (fs : list (string * expr)) : expr :=
  fun d => o <- obj_fields fs d ;; Ok (Some (VDoc o)).

(** [{$expr: e}] inside [$match] *)
Definition qExpr (e : expr) (d : doc) : res bool :=
  x <- e d ;; Ok (truthy x).

End Agg.

(** ** Pipeline stages *)

Module Stage.
Import Bson Query Agg.

Definition stage : Type := list doc -> res (list doc).

Fixpoint run (stages : list stage) (rows : list doc) : res (list doc) :=
  match stages with
  | [] => Ok rows
  | s :: rest => out <- s rows ;; run rest out
  end.

(** *** [$match] *)

Definition match_rows (q : query) (rows : list doc) : list doc := filter q rows.

Definition match_stage (q : query) : stage := fun rows => Ok (match_rows q rows).

(** [{$match: {$expr: e}}] *)
Fixpoint match_expr_rows (e : expr) (rows : list doc) : res (list doc) :=
  match rows with
  | [] => Ok []
  | d :: rows' =>
      b <- qExpr e d ;;
      rest <- match_expr_rows e rows' ;;
      Ok (if b then d :: rest else rest)
  end.

(** *** [$project] with an allow-list *)

(** The paths that continue below field [k]. *)
Definition tails (k : string) (ps : list path) : list path :=
  flat_map
    (fun p =>
       match p with
       | k' :: rest => if String.eqb k k' then [rest] else []
       | [] => []
       end) ps.

Definition has_leaf (ps : list path) : bool :=
  existsb (fun p => match p with [] => true | _ :: _ => false end) ps.

(** Inclusion keeps the fields in the order of the input.  A listed field is
    copied whole.  Below a field that only prefixes listed paths, a
    sub-document is pruned, an array is pruned element by element (nested
    arrays too, scalar elements are dropped), and a scalar is dropped. *)
Fixpoint include (ps : list path) (v : value) {struct v} : option value :=
  match v with
  | VDoc fs =>
      Some (VDoc
        ((fix go (fs : list (string * value)) : list (string * value) :=
            match fs with
            | [] => []
            | (k, x) :: fs' =>
                let sub := tails k ps in
                match sub with
                | [] => go fs'
                | _ :: _ =>
                    if has_leaf sub then (k, x) :: go fs'
                    else match include sub x with
                         | Some y => (k, y) :: go fs'
                         | None => go fs'
                         end
                end
            end) fs))
  | VArr vs =>
      Some (VArr
        ((fix go (vs : list value) : list value :=
            match vs with
            | [] => []
            | x :: vs' =>
                match include ps x with
                | Some y => y :: go vs'
                | None => go vs'
                end
            end) vs))
  | _ => None
  end.

(** The same pruning of a field list, named for the proofs. *)
Fixpoint include_fields (ps : list path) (fs : doc) : doc :=
  match fs with
  | [] => []
  | (k, x) :: fs' =>
      let sub := tails k ps in
      match sub with
      | [] => include_fields ps fs'
      | _ :: _ =>
          if has_leaf sub then (k, x) :: include_fields ps fs'
          else match include sub x with
               | Some y => (k, y) :: include_fields ps fs'
               | None => include_fields ps fs'
               end
      end
  end.

(** [_id] is kept unless it is switched off, which the pipeline never does. *)
Definition project_incl (ps : list path) (d : doc) : doc :=
  include_fields (["_id"] :: ps) d.

(** Computed fields are evaluated against the input document and appended in
    the order of the specification; a missing result adds nothing. *)
Fixpoint add_computed (cs : list (string * expr)) (d : doc) (out : doc) : res doc :=
  match cs with
  | [] => Ok out
  | (k, e) :: cs' =>
      x <- e d ;;
      add_computed cs' d (match x with Some v => set_field k v out | None => out end)
  end.

Definition project_row (ps : list path) (cs : list (string * expr)) (d : doc) : res doc :=
  add_computed cs d (project_incl ps d).

Definition project_stage (ps : list path) (cs : list (string * expr)) : stage :=
  mapM (project_row ps cs).

(** *** [$unwind] *)

(** [$unwind] reads its path through sub-documents only. *)
Fixpoint get_nested (p : path) (d : doc) : option value :=
  match p with
  | [] => None
  | k :: rest =>
      match rest with
      | [] => field k d
      | _ :: _ =>
          match field k d with
          | Some (VDoc fs) => get_nested rest fs
          | _ => None
          end
      end
  end.

Fixpoint set_nested (p : path) (e : value) (d : doc) : doc :=
  match p with
  | [] => d
  | k :: rest =>
      match rest with
      | [] => set_field k e d
      | _ :: _ =>
          match field k d with
          | Some (VDoc fs) => set_field k (VDoc (set_nested rest e fs)) d
          | _ => d
          end
      end
  end.

(** [{$unwind: {path: p}}], without [preserveNullAndEmptyArrays]: one row per
    element, in the order of the array; no row for a missing, null or empty
    path; a value that is not an array passes as it is. *)
Definition unwind_row (p : path) (d : doc) : list doc :=
  match get_nested p d with
  | None => []
  | Some VNull => []
  | Some (VArr es) => map (fun e => set_nested p e d) es
  | Some _ => [d]
  end.

Definition unwind_rows (p : path) (rows : list doc) : list doc :=
  flat_map (unwind_row p) rows.

Definition unwind_stage (p : path) : stage := fun rows => Ok (unwind_rows p rows).

(** *** [$lookup] with [let] and a sub-pipeline *)

Definition lookup_row (from : list doc) (let_ : expr)
    (pipeline : option value -> list doc -> res (list doc)) (as_ : string)
    (d : doc) : res doc :=
  v <- let_ d ;;
  cs <- pipeline v from ;;
  Ok (set_field as_ (VArr (map VDoc cs)) d).

Definition lookup_stage (from : list doc) (let_ : expr)
    (pipeline : option value -> list doc -> res (list doc)) (as_ : string) : stage :=
  mapM (lookup_row from let_ pipeline as_).

(** *** [$group] *)

Inductive accumulator : Type :=
| AccFirst (e : expr)
| AccPush (e : expr)
| AccSum (e : expr).

(** Rows are collected per key in the order they arrive; a new key opens a
    bucket after the existing ones.  (The store does not promise an order of
    the groups; the pipeline sorts after grouping.)  As with [$sort], the
    store's memory limit for the stage is not modelled. *)
Fixpoint add_to_bucket (k : value) (d : doc) (bs : list (value * list doc))
  : list (value * list doc) :=
  match bs with
  | [] => [(k, [d])]
  | (k', ds) :: bs' =>
      if value_eqb k k' then (k', ds ++ [d]) :: bs'
      else (k', ds) :: add_to_bucket k d bs'
  end.

Definition buckets (keyed : list (value * doc)) : list (value * list doc) :=
  fold_left (fun bs kd => add_to_bucket (fst kd) (snd kd) bs) keyed [].

(** A missing group key counts as null. *)
Definition or_null (o : option value) : value :=
  match o with Some v => v | None => VNull end.

Definition group_key (id : expr) (d : doc) : res (value * doc) :=
  k <- id d ;; Ok (or_null k, d).

Definition present (xs : list (option value)) : list value :=
  flat_map (fun x => match x with Some v => [v] | None => [] end) xs.

Definition sum_nums (xs : list (option value)) : Z :=
  fold_left (fun s x => match x with Some (VNum n) => (s + n)%Z | _ => s end) xs 0%Z.

(** [$first] of a missing value is reported as null; [$push] skips missing
    values; [$sum] adds the numbers. *)
Definition acc_value (a : accumulator) (rows : list doc) : res value :=
  match a with
  | AccFirst e =>
      xs <- mapM e rows ;;
      Ok (match xs with x :: _ => or_null x | [] => VNull end)
  | AccPush e => xs <- mapM e rows ;; Ok (VArr (present xs))
  | AccSum e => xs <- mapM e rows ;; Ok (VNum (sum_nums xs))
  end.

Fixpoint acc_fields (accs : list (string * accumulator)) (rows : list doc) : res doc :=
  match accs with
  | [] => Ok []
  | (k, a) :: accs' =>
      v <- acc_value a rows ;;
      rest <- acc_fields accs' rows ;;
      Ok ((k, v) :: rest)
  end.

Definition group_doc (accs : list (string * accumulator)) (b : value * list doc)
  : res doc :=
  fs <- acc_fields accs (snd b) ;; Ok (("_id", fst b) :: fs).

Definition group_stage (id : expr) (accs : list (string * accumulator)) : stage :=
  fun rows =>
    keyed <- mapM (group_key id) rows ;;
    mapM (group_doc accs) (buckets keyed).

(** *** [$sort], every key ascending *)

(** The key of a row under one sort path: a missing field sorts as null, an
    array by its least element, an empty array below null.  The path is read
    through sub-documents only; the store reads it through arrays too.  The
    rows that reach the [$sort] of the pipeline hold a document under
    [answers], where the two readings agree. *)
Inductive skey : Type :=
| KEmpty
| KVal (v : value).

Definition least (x : value) (xs : list value) : value :=
  fold_left (fun m y => match compare_value y m with Lt => y | _ => m end) xs x.

Definition sort_key (p : path) (d : doc) : skey :=
  match get_nested p d with
  | None => KVal VNull
  | Some (VArr []) => KEmpty
  | Some (VArr (e :: es)) => KVal (least e es)
  | Some v => KVal v
  end.

Definition compare_skey (a b : skey) : comparison :=
  match a, b with
  | KEmpty, KEmpty => Eq
  | KEmpty, KVal _ => Lt
  | KVal _, KEmpty => Gt
  | KVal x, KVal y => compare_value x y
  end.

Fixpoint compare_rows (ps : list path) (a b : doc) : comparison :=
  match ps with
  | [] => Eq
  | p :: ps' =>
      then_cmp (compare_skey (sort_key p a) (sort_key p b)) (compare_rows ps' a b)
  end.

(** The store orders the rows by the keys and leaves the order of rows with
    equal keys open.  The sorter here is one of the sorters it may be:
    insertion from the right, which places a row before the rows it ties
    with and so happens to keep tied rows in the order of the input.  No
    statement about the store may rest on that; [Cases.sort_contract] says
    what may be relied on. *)
Fixpoint insert_row (ps : list path) (x : doc) (l : list doc) : list doc :=
  match l with
  | [] => [x]
  | y :: l' =>
      match compare_rows ps x y with
      | Gt => y :: insert_row ps x l'
      | _ => x :: l
      end
  end.

Definition sort_rows (ps : list path) (rows : list doc) : list doc :=
  fold_right (insert_row ps) [] rows.

(** The stage never fails here.  The store can reject a sort that exceeds
    its memory limit, or whose keys are arrays in more than one key; these
    limits are not modelled, so a result [Ok] says what the rows are when
    the store returns rows, not that it returns. *)
Definition sort_stage (ps : list path) : stage := fun rows => Ok (sort_rows ps rows).

End Stage.

(** ** The program *)

Module Task.
Import Bson Query Agg Stage.

(** The constants of the source: the initiative, the two question
    categories, the value set, the ceiling and the vendor name. *)
Definition initiative : value := VOid "58af4da0b310d92314627290".
Definition categories : list value := [VNum 105; VNum 147].
Definition value_set : list value := [VNum 50].
Definition ceiling : value := VNum 9000.
Definition vendor : value := VStr "ADP".

Definition p_category : path := ["contacts"; "questions"; "category_id"].
Definition p_answers : path := ["contacts"; "questions"; "answers"].
Definition p_answer_value : path :=
  ["contacts"; "questions"; "answers"; "primary_answer_value"].
Definition p_answer_text : path :=
  ["contacts"; "questions"; "answers"; "primary_answer_text"].
Definition p_loops : path := ["contacts"; "questions"; "answers"; "loopInstances"].
Definition p_loop_instance : path :=
  ["contacts"; "questions"; "answers"; "loopInstances"; "loop_instance"].
Definition p_loop_selected : path :=
  ["contacts"; "questions"; "answers"; "loopInstances"; "is_selected"].
Definition p_loop_text : path :=
  ["contacts"; "questions"; "answers"; "loopInstances"; "loop_text"].

(** Stage 1, [$match]: a query object with several fields is the conjunction
    of its fields. *)
Definition q_index : query :=
  qAnd
    [ qAnd
        [ qEq ["initiativeId"] initiative;
          qIn p_category categories;
          qElemMatch ["contacts"] (qAnd [qNe ["datePublished"] VNull]) ];
      qAnd
        [ qElemMatch ["contacts"; "shortListedVendors"]
            (qOr
               [ qAnd [qEq ["name"] vendor; qEq ["is_selected"] (VBool true)];
                 qAnd [ qIn ["value"] value_set;
                        qLt ["value"] ceiling;
                        qEq ["is_selected"] (VBool true) ] ]) ] ].

(** Stage 2, [$project]: the allow-list. *)
Definition allow_list : list path :=
  [ ["contacts"; "id"];
    p_category;
    p_answer_value;
    p_answer_text;
    p_loop_instance;
    p_loop_selected;
    p_loop_text;
    ["contacts"; "questions"; "answers"; "criteria_value"];
    ["contacts"; "questions"; "criteria_value"];
    ["contacts"; "questions"; "label"];
    ["contacts"; "questions"; "raw_text"];
    ["contacts"; "questions"; "id"];
    ["contacts"; "win_vendor"; "is_client"];
    ["contacts"; "win_vendor"; "name"];
    ["contacts"; "win_vendor"; "value"] ].

(** Stage 5, [$match] on the question rows: category, the [$nor] exclusion,
    and the ceiling on the answer values. *)
Definition q_excluded : query :=
  qAnd
    [ qEq p_category (VNum 105);
      qElemMatch p_answers
        (qAnd
           [ qGte ["primary_answer_value"] ceiling;
             qElemMatch ["loopInstances"]
               (qAnd
                  [ qEq ["is_selected"] (VBool true);
                    qOr [ qIn ["loop_instance"] value_set;
                          qEq ["loop_text"] vendor ] ]) ]) ].

Definition q_question : query :=
  qAnd
    [ qIn p_category categories;
      qNor [q_excluded];
      qLt p_answer_value ceiling ].

(** Stage 8, [$match] on the loop-instance rows. *)
Definition q_client_lost : query :=
  qAnd
    [ qEq ["clientWinner"] (VBool false);
      qEq p_category (VNum 147);
      qOr [ qIn ["contacts"; "win_vendor"; "value"] value_set;
            qEq ["contacts"; "win_vendor"; "name"] vendor ] ].

Definition q_loop : query :=
  qOr
    [ qIn p_loop_instance value_set;
      qEq p_loop_text vendor;
      q_client_lost ].

(** Stage 9, [$project]: four inclusions and three computed fields. *)
Definition keep_list : list path :=
  [ ["contacts"; "id"];
    ["contacts"; "questions"; "id"];
    p_answers;
    p_category ].

Definition e_competitorWinner : expr :=
  eEq
    (eCmp
       (eAnd
          [ eEq (eField ["clientWinner"]) (eLit (VBool false));
            eOr
              [ eEq (eField p_loop_instance)
                    (eField ["contacts"; "win_vendor"; "value"]);
                eEq (eField p_category) (eLit (VNum 147)) ] ])
       (eLit (VBool true)))
    (eLit (VNum 0)).

Definition computed : list (string * expr) :=
  [ ("criteria_value",
     eIfNull (eField ["contacts"; "questions"; "criteria_value"])
             (eField ["contacts"; "questions"; "answers"; "criteria_value"]));
    ("clientWinner", eField ["contacts"; "win_vendor"; "is_client"]);
    ("competitorWinner", e_competitorWinner) ].

(** Stage 10, [$lookup]: the sub-pipeline over [clientCriteria], with [v1]
    bound to the row's [criteria_value]. *)
Definition q_scope : query := qEq ["versions"; "initiativeId"] initiative.

Definition criteria_fields : list path :=
  [ ["value"]; ["label"]; ["definition"]; ["versions"; "definition"] ].

Definition criteria_pipeline (v1 : option value) : list stage :=
  [ match_stage q_scope;
    project_stage criteria_fields [];
    match_expr_rows (eEq (eField ["value"]) (eVar v1)) ].

Definition lookup_criteria (clientCriteria : list doc) : stage :=
  lookup_stage clientCriteria (eField ["criteria_value"])
    (fun v1 from => run (criteria_pipeline v1) from) "criteria".

(** Stage 11, [$group] by the answer value. *)
Definition e_text : expr := eArrayElemAt (eField ["criteria"; "label"]) 0.

Definition e_definition : expr :=
  eIfNull
    (eArrayElemAt
       (eArrayElemAt (eField ["criteria"; "versions"; "definition"]) 0) 0)
    (eArrayElemAt (eField ["criteria"; "definition"]) 0).

Definition answer_fields : list (string * expr) :=
  [ ("c", eField ["contacts"; "id"]);
    ("question_category", eField p_category);
    ("question_id", eField ["contacts"; "questions"; "id"]);
    ("ins", eField p_loop_instance);
    ("answer_value", eField p_answer_value);
    ("selected", eField p_loop_selected);
    ("value", eField ["criteria_value"]);
    ("text", e_text);
    ("definition", e_definition) ].

Definition e_answer : expr := eObj answer_fields.

Definition group_answers : stage :=
  group_stage (eField p_answer_value)
    [ ("answer_value", AccFirst (eField p_answer_value));
      ("answer_text", AccFirst (eField p_answer_text));
      ("answers", AccPush e_answer);
      ("count", AccSum (eLit (VNum 1))) ].

(** Stage 13, [$sort]. *)
Definition sort_keys : list path :=
  [ ["answer_text"]; ["answers"; "question_id"]; ["answers"; "answer_value"] ].

(** The thirteen stages, in the order of the source. *)
Definition pipeline (clientCriteria : list doc) : list stage :=
  [ match_stage q_index;
    project_stage allow_list [];
    unwind_stage ["contacts"];
    unwind_stage ["contacts"; "questions"];
    match_stage q_question;
    unwind_stage p_answers;
    unwind_stage p_loops;
    match_stage q_loop;
    project_stage keep_list computed;
    lookup_criteria clientCriteria;
    group_answers;
    unwind_stage ["answers"];
    sort_stage sort_keys ].

(** What the function can see and change: the two collections and their
    indexes, the clock, the running console timers and the console output. *)
Record world : Type := World {
  opportunities : list doc;
  clientCriteria : list doc;
  indexes : list (string * list string);
  clock : Z;
  latency : Z;
  timers : list (string * Z);
  console : list (string * Z)
}.

Definition add_index (coll : string) (keys : list string) (w : world) : world :=
  World (opportunities w) (clientCriteria w) ((coll, keys) :: indexes w)
        (clock w) (latency w) (timers w) (console w).

(** [before]: the two compound indexes.  An index changes no document. *)
Definition before (w : world) : world :=
  add_index "clientCriteria" ["value"; "versions.initiativeId"]
    (add_index "opportunities"
       ["initiativeId"; "contacts.questions.category_id"; "contacts.datePublished"]
       w).

Fixpoint find_timer (label : string) (ts : list (string * Z)) : option Z :=
  match ts with
  | [] => None
  | (l, t) :: ts' => if String.eqb label l then Some t else find_timer label ts'
  end.

(** [console.time(label)] starts a timer.  When the label is already
    running, the running timer is kept (the warning goes to the process,
    not to the console output). *)
Definition console_time (label : string) (w : world) : world :=
  match find_timer label (timers w) with
  | Some _ => w
  | None =>
      World (opportunities w) (clientCriteria w) (indexes w)
            (clock w) (latency w) ((label, clock w) :: timers w) (console w)
  end.

Fixpoint drop_timer (label : string) (ts : list (string * Z)) : list (string * Z) :=
  match ts with
  | [] => []
  | (l, t) :: ts' => if String.eqb label l then ts' else (l, t) :: drop_timer label ts'
  end.

Definition console_timeEnd (label : string) (w : world) : world :=
  match find_timer label (timers w) with
  | Some t =>
      World (opportunities w) (clientCriteria w) (indexes w)
            (clock w) (latency w) (drop_timer label (timers w))
            (console w ++ [(label, (clock w - t)%Z)])
  | None => w
  end.

(** Waiting for the store lets the clock advance. *)
Definition await (w : world) : world :=
  World (opportunities w) (clientCriteria w) (indexes w)
        ((clock w + latency w)%Z) (latency w) (timers w) (console w).

(** [aggregate(...).toArray()] on [opportunities].  The source passes the
    thirteen stages as arguments, followed by [{allowDiskUse: true}], which
    is not a stage and changes no row; the limits of the store that it
    would lift are not modelled. *)
Definition aggregate (w : world) : res (list doc) :=
  run (pipeline (clientCriteria w)) (opportunities w).

(** [task_3_1]: start the timer, await the aggregation, stop the timer and
    return the rows.  When the store rejects the aggregation the awaited
    promise throws, so the timer is not stopped. *)
Definition task_3_1 (w : world) : res (list doc) * world :=
  let w1 := console_time "log" w in
  let w2 := await w1 in
  match aggregate w2 with
  | Ok result => (Ok result, console_timeEnd "log" w2)
  | Err e => (Err e, w2)
  end.

(** The pipeline without its allow-list stage, every other stage unchanged. *)
Definition pipeline_unpruned (clientCriteria : list doc) : list stage :=
  match pipeline clientCriteria with
  | s1 :: _ :: rest => s1 :: rest
  | other => other
  end.

End Task.

(** ** Predicates used in the statements *)

Module Spec.
Import Bson Query Agg Stage Task.





(** The rows that reach the [$match] of stage 8: stages 1 to 7 on the
    collection. *)
Definition rows_at_loop_match (opps : list doc) : list doc :=
  unwind_rows p_loops
    (unwind_rows p_answers
       (match_rows q_question
          (unwind_rows ["contacts"; "questions"]
             (unwind_rows ["contacts"]
                (map (project_incl allow_list) (match_rows q_index opps)))))).

(** Stage 8 with only its first two [$or] branches, and the pipeline with
    that stage in place of stage 8. *)
Definition q_loop_two : query :=
  qOr [ qIn p_loop_instance value_set; qEq p_loop_text vendor ].

Definition pipeline_two_branches (clientCriteria : list doc) : list stage :=
  firstn 7 (pipeline clientCriteria)
  ++ [match_stage q_loop_two]
  ++ skipn 8 (pipeline clientCriteria).

(** Stages 5 to 8 on a stream of question rows: the ceiling filter, the two
    expansions and the loop-instance filter. *)
Definition bounded_selection (rows : list doc) : list doc :=
  match_rows q_loop
    (unwind_rows p_loops (unwind_rows p_answers (match_rows q_question rows))).

Definition below_ceiling (v : option Z) : bool :=
  match v with Some n => (n <? 9000)%Z | None => false end.

(** The selection as the specification words it: the values equal to the
    greatest value below the ceiling [c]. *)
Definition below (c : Z) (vs : list (option Z)) : list Z :=
  flat_map (fun v => match v with
                     | Some n => if (n <? c)%Z then [n] else []
                     | None => []
                     end) vs.

Definition spec_maximal_below (c : Z) (vs : list (option Z)) : list (option Z) :=
  match below c vs with
  | [] => []
  | n :: ns =>
      let m := fold_left Z.max ns n in
      filter (fun v => match v with Some k => (k =? m)%Z | None => false end) vs
  end.

(** The documents of [clientCriteria] that the sub-pipeline of [$lookup]
    returns for the key [v1]: restricted to the initiative, pruned, then
    matched on [value]. *)
Definition value_is (v1 : option value) (c : doc) : bool :=
  is_eq (compare_opt (field "value" c) v1).

Definition criteria_for (v1 : option value) (cc : list doc) : list doc :=
  filter (value_is v1) (map (project_incl criteria_fields) (filter q_scope cc)).

(** First binding of a name in a list of named expressions. *)
Fixpoint assoc {A : Type} (k : string) (l : list (string * A)) : option A :=
  match l with
  | [] => None
  | (k', a) :: l' => if String.eqb k k' then Some a else assoc k l'
  end.

(** The rows that reach [$group]: stages 1 to 10. *)
Definition rows_at_group (w : world) : res (list doc) :=
  run (firstn 10 (pipeline (clientCriteria w))) (opportunities w).

End Spec.

(** ** Concrete inputs *)

Module Fixture.
Import Bson Query Agg Stage Task.

Definition loop (ins : Z) (text : string) : value :=
  VDoc [("loop_instance", VNum ins); ("is_selected", VBool true);
        ("loop_text", VStr text)].

Definition answer (v : Z) (text : string) (loops : list value) : value :=
  VDoc [("primary_answer_value", VNum v); ("primary_answer_text", VStr text);
        ("loopInstances", VArr loops)].

Definition question (id cat crit : Z) (answers : list value) : value :=
  VDoc [("id", VNum id); ("category_id", VNum cat); ("criteria_value", VNum crit);
        ("answers", VArr answers)].

Definition contact (id : Z) (win_value : Z) (questions : list value) : value :=
  VDoc [("id", VNum id); ("datePublished", VDate 1488326400000);
        ("shortListedVendors",
         VArr [VDoc [("name", VStr "ADP"); ("is_selected", VBool true);
                     ("value", VNum 50)]]);
        ("win_vendor",
         VDoc [("is_client", VBool false); ("name", VStr "Other");
               ("value", VNum win_value)]);
        ("questions", VArr questions)].

Definition opportunity (id : Z) (extra : doc) (contacts : list value) : doc :=
  [("_id", VNum id); ("initiativeId", initiative)] ++ extra
  ++ [("contacts", VArr contacts)].

Definition criterion (id v : Z) (label top nested : string) : doc :=
  [("_id", VNum id); ("value", VNum v); ("label", VStr label);
   ("definition", VStr top);
   ("versions",
    VArr [VDoc [("initiativeId", initiative); ("definition", VStr nested)]])].

Definition world_of (opps cc : list doc) : world := World opps cc [] 0 7 [] [].

(** One question of category 147 with an answer below the ceiling and an
    answer above it, both with a selected loop instance of the value set. *)
Definition w_two_answers : world :=
  world_of
    [opportunity 1 []
       [contact 11 7
          [question 201 147 5
             [answer 100 "low" [loop 50 "ADP"];
              answer 9500 "high" [loop 50 "ADP"]]]]]
    [criterion 1 5 "L5" "top" "nested"].

(** Two rows that tie on the three sort keys and differ in the contact. *)
Definition w_tie : world :=
  world_of
    [opportunity 1 []
       [contact 12 7 [question 201 147 5 [answer 100 "low" [loop 50 "ADP"]]];
        contact 11 7 [question 201 147 5 [answer 100 "low" [loop 50 "ADP"]]]]]
    [criterion 1 5 "L5" "top" "nested"].

(** A document with a top-level [clientWinner: false] whose only loop
    instance is outside the value set and whose winning vendor is inside. *)
Definition w_client_winner : world :=
  world_of
    [opportunity 1 [("clientWinner", VBool false)]
       [contact 11 50 [question 201 147 5 [answer 100 "low" [loop 7 "Other"]]]]]
    [criterion 1 5 "L5" "top" "nested"].

(** A row whose [criteria_value] has no document in [clientCriteria]. *)
Definition w_no_criterion : world :=
  world_of
    [opportunity 1 []
       [contact 11 7 [question 201 147 5 [answer 100 "low" [loop 50 "ADP"]]]]]
    [criterion 1 6 "L6" "top" "nested"].

(** A question row as it enters stage 5, with one answer of value [v] (null
    when [v] is [None]) and a selected loop instance of the value set; and
    the same row as it leaves stage 8. *)
Definition answer_value (v : option Z) : value :=
  match v with Some n => VNum n | None => VNull end.

Definition question_row (cat : Z) (v : option Z) : doc :=
  [("_id", VNum 1);
   ("contacts",
    VDoc [("id", VNum 11);
          ("questions",
           VDoc [("id", VNum 201); ("category_id", VNum cat);
                 ("answers",
                  VArr [VDoc [("primary_answer_value", answer_value v);
                              ("loopInstances", VArr [loop 50 "ADP"])]])])])].

Definition loop_row (cat : Z) (v : option Z) : doc :=
  [("_id", VNum 1);
   ("contacts",
    VDoc [("id", VNum 11);
          ("questions",
           VDoc [("id", VNum 201); ("category_id", VNum cat);
                 ("answers",
                  VDoc [("primary_answer_value", answer_value v);
                        ("loopInstances", loop 50 "ADP")])])])].

End Fixture.

(** ** Predicates for the properties beyond the claims *)

Module Shape.
Import Bson Query Agg Stage Task.

(** The group key of a row: its answer value, null when it has none. *)
Definition key_of (d : doc) : value := or_null (get_in p_answer_value d).

(** The rows of a stream that fall into the group of key [k], in the order
    of the stream. *)
Definition group_rows (k : value) (rows : list doc) : list doc :=
  filter (fun d => value_eqb (key_of d) k) rows.

(** The rows of the first bucket that has key [k]. *)
Fixpoint bucket_rows (k : value) (bs : list (value * list doc)) : list doc :=
  match bs with
  | [] => []
  | (k', ds) :: bs' => if value_eqb k k' then ds else bucket_rows k bs'
  end.

(** A group document, and a returned row: the group document with one of its
    pushed objects in place of the array. *)
Definition group_of (k t : value) (objs : list doc) (n : Z) : doc :=
  [("_id", k); ("answer_value", k); ("answer_text", t);
   ("answers", VArr (map VDoc objs)); ("count", VNum n)].

Definition returned_row (k t : value) (o : doc) (n : Z) : doc :=
  [("_id", k); ("answer_value", k); ("answer_text", t);
   ("answers", VDoc o); ("count", VNum n)].

Definition first_text (ds : list doc) : value :=
  match ds with
  | d :: _ => or_null (get_in p_answer_text d)
  | [] => VNull
  end.

Definition has_id (k : value) (r : doc) : bool :=
  match field "_id" r with
  | Some v => value_eqb v k
  | None => false
  end.

(** A criteria document whose [versions] is a sub-document, not an array. *)
Definition w_versions_object : world :=
  Fixture.world_of
    [Fixture.opportunity 1 []
       [Fixture.contact 11 7
          [Fixture.question 201 147 5
             [Fixture.answer 100 "low" [Fixture.loop 50 "ADP"]]]]]
    [[("_id", VNum 1); ("value", VNum 5); ("label", VStr "L5");
      ("versions",
       VDoc [("initiativeId", initiative); ("definition", VStr "nested")])]].

(** Question rows as they enter stage 5, with any number of answers and of
    loop instances, and what stage 5 decides on them. *)
Record loop_spec : Type := Loop {
  l_ins : Z;
  l_sel : bool;
  l_text : string
}.

Record answer_spec : Type := Answer {
  a_value : option Z;
  a_loops : list loop_spec
}.

Definition mk_loop (l : loop_spec) : value :=
  VDoc [("loop_instance", VNum (l_ins l)); ("is_selected", VBool (l_sel l));
        ("loop_text", VStr (l_text l))].

Definition mk_answer (a : answer_spec) : value :=
  VDoc [("primary_answer_value", Fixture.answer_value (a_value a));
        ("loopInstances", VArr (map mk_loop (a_loops a)))].

Definition mk_question_row (cat : Z) (answers : list answer_spec) : doc :=
  [("_id", VNum 1);
   ("contacts",
    VDoc [("id", VNum 11);
          ("questions",
           VDoc [("id", VNum 201); ("category_id", VNum cat);
                 ("answers", VArr (map mk_answer answers))])])].

Definition loop_hits (l : loop_spec) : bool :=
  l_sel l && ((l_ins l =? 50)%Z || (l_text l =? "ADP")%string).

Definition at_ceiling (v : option Z) : bool :=
  match v with Some n => (9000 <=? n)%Z | None => false end.

Definition answer_excludes (a : answer_spec) : bool :=
  at_ceiling (a_value a) && existsb loop_hits (a_loops a).

Definition question_kept (cat : Z) (answers : list answer_spec) : bool :=
  ((cat =? 105)%Z || (cat =? 147)%Z)
  && negb ((cat =? 105)%Z && existsb answer_excludes answers)
  && existsb (fun a => Spec.below_ceiling (a_value a)) answers.

(** Two paths part ways: at the first component where they differ, both
    still have a component. *)
Fixpoint diverge (p q : path) : bool :=
  match p, q with
  | a :: p', b :: q' => if String.eqb a b then diverge p' q' else true
  | _, _ => false
  end.

Definition is_array (v : value) : bool :=
  match v with VArr _ => true | _ => false end.

(** A category value that stage 5 accepts: 105 or 147, or an array holding
    one of them. *)
Definition in_categories (v : value) : bool :=
  existsb (fun x => existsb (value_eqb x) categories) (with_elems v).

End Shape.

(** ** Rows, criteria and sorters for the statements of C2, C5 and C7 *)

Module Cases.
Import Bson Query Agg Stage Task Spec Shape.

(** *** Stages 5 to 8 *)

(** The row that stage 7 makes of a question row with the answer [a], for
    the loop instance [l] of that answer. *)
Definition flat_loop_row (cat : Z) (a : answer_spec) (l : loop_spec) : doc :=
  [("_id", VNum 1);
   ("contacts",
    VDoc [("id", VNum 11);
          ("questions",
           VDoc [("id", VNum 201); ("category_id", VNum cat);
                 ("answers",
                  VDoc [("primary_answer_value", Fixture.answer_value (a_value a));
                        ("loopInstances", mk_loop l)])])])].

(** What stage 8 asks of a loop instance: the value 50 or the text ADP. *)
Definition loop_passes (l : loop_spec) : bool :=
  (l_ins l =? 50)%Z || (l_text l =? "ADP")%string.

(** The rows that come back for a question row with the one answer [a]. *)
Definition selected_rows (cat : Z) (a : answer_spec) : list doc :=
  if Spec.below_ceiling (a_value a)
  then map (flat_loop_row cat a) (filter loop_passes (a_loops a))
  else [].

(** *** Documents of [clientCriteria] *)



















(** *** Stage 13 *)














End Cases.

(** * Properties *)

Import Bson Query Agg Stage Task.

(** ** Fields *)

Section Fields.

Lemma field_set_field_same (k : string) (v : value) (fs : doc) :
  field k (set_field k v fs) = Some v.
Proof.
  induction fs as [|[k' v'] fs IH]; simpl.
  - now rewrite String.eqb_refl.
  - destruct (String.eqb k k') eqn:E; simpl.
    + now rewrite String.eqb_refl.
    + now rewrite E.
Qed.

Lemma field_set_field_other (k k' : string) (v : value) (fs : doc) :
  k <> k' -> field k (set_field k' v fs) = field k fs.
Proof.
  intros Hne. induction fs as [|[k0 v0] fs IH]; simpl.
  - destruct (String.eqb_spec k k'); [contradiction|reflexivity].
  - destruct (String.eqb_spec k' k0) as [->|Hk]; simpl.
    + destruct (String.eqb_spec k k0); [contradiction|reflexivity].
    + destruct (String.eqb_spec k k0); [reflexivity|exact IH].
Qed.

End Fields.

(** ** The order on values *)

Section Order.



Lemma bool_compare_eq (x y : bool) : Bool.compare x y = Eq -> x = y.
Proof. now destruct x, y. Qed.


Lemma compare_value_eq (a : value) :
  forall b, compare_value a b = Eq -> a = b.
Proof.
  induction a as [| x | x | x | x | x | xs IH | xs IH] using value_deep_ind;
    intros [| y | y | y | y | y | ys | ys]; simpl; intros H;
    try reflexivity; try discriminate H.
  - f_equal. now apply bool_compare_eq.
  - f_equal. now apply Z.compare_eq.
  - f_equal. now apply String.compare_eq_iff.
  - f_equal. now apply String.compare_eq_iff.
  - f_equal. now apply Z.compare_eq.
  - f_equal. revert ys H.
    induction IH as [|x xs Hx _ IHxs]; intros [|y ys] H; simpl in H;
      try reflexivity; try discriminate H.
    destruct (compare_value x y) eqn:E; simpl in H; try discriminate H.
    f_equal; [now apply Hx | now apply IHxs].
  - f_equal. revert ys H.
    induction IH as [|[kx x] xs Hx _ IHxs]; intros [|[ky y] ys] H; simpl in H;
      try reflexivity; try discriminate H.
    simpl in Hx.
    destruct (Nat.compare (rank x) (rank y)); simpl in H; try discriminate H.
    destruct (String.compare kx ky) eqn:Ek; simpl in H; try discriminate H.
    destruct (compare_value x y) eqn:E; simpl in H; try discriminate H.
    apply String.compare_eq_iff in Ek. subst ky.
    f_equal; [f_equal; now apply Hx | now apply IHxs].
Qed.

Lemma string_compare_refl (s : string) : String.compare s s = Eq.
Proof.
  pose proof (String.compare_antisym s s) as H.
  destruct (String.compare s s); simpl in H; congruence.
Qed.

Lemma compare_value_refl (a : value) : compare_value a a = Eq.
Proof.
  induction a as [| x | x | x | x | x | xs IH | xs IH] using value_deep_ind;
    simpl; try reflexivity.
  - now destruct x.
  - apply Z.compare_refl.
  - apply string_compare_refl.
  - apply string_compare_refl.
  - apply Z.compare_refl.
  - induction IH as [|x xs Hx _ IHxs]; simpl; [reflexivity|].
    now rewrite Hx.
  - induction IH as [|[kx x] xs Hx _ IHxs]; simpl; [reflexivity|].
    simpl in Hx. now rewrite Nat.compare_refl, string_compare_refl, Hx.
Qed.






End Order.

(** ** Transitivity of the order *)

Section Transitivity.











End Transitivity.

(** ** [$sort] *)

Import Spec.

Section Sorting.
Variable ps : list path.

Lemma insert_row_perm (x : doc) (l : list doc) :
  Permutation (x :: l) (insert_row ps x l).
Proof.
  induction l as [|y l IH]; simpl; [apply Permutation_refl|].
  destruct (compare_rows ps x y); try apply Permutation_refl.
  eapply Permutation_trans; [apply perm_swap|]. now apply perm_skip.
Qed.

Lemma sort_rows_perm (l : list doc) : Permutation l (sort_rows ps l).
Proof.
  induction l as [|x l IH]; simpl; [constructor|].
  eapply Permutation_trans; [apply perm_skip, IH | apply insert_row_perm].
Qed.







End Sorting.



(** ** Running a list of stages *)

Lemma run_app (s1 s2 : list stage) (rows : list doc) :
  run (s1 ++ s2) rows = bind (run s1 rows) (run s2).
Proof.
  revert rows. induction s1 as [|s s1 IH]; intros rows; simpl; [reflexivity|].
  destruct (s rows); simpl; [apply IH | reflexivity].
Qed.

(** ** The function around the pipeline *)

Lemma task_3_1_result (w : world) :
  fst (task_3_1 w) = run (pipeline (clientCriteria w)) (opportunities w).
Proof.
  unfold task_3_1, aggregate, console_time.
  destruct (find_timer "log" (timers w)); cbn [await clientCriteria opportunities];
    now destruct (run (pipeline (clientCriteria w)) (opportunities w)).
Qed.

(** ** [$unwind] *)


(** ** What the allow-list leaves at the top of a row *)

Lemma mapM_ok_map {A B : Type} (f : A -> res B) (g : A -> B) (l : list A) :
  (forall a, f a = Ok (g a)) -> mapM f l = Ok (map g l).
Proof.
  intros H. induction l as [|a l IH]; simpl; [reflexivity|].
  now rewrite H, IH.
Qed.

Lemma mapM_Forall {A B : Type} (f : A -> res B) (Q : B -> Prop) (l : list A) :
  Forall (fun a => exists b, f a = Ok b /\ Q b) l ->
  exists bs, mapM f l = Ok bs /\ Forall Q bs.
Proof.
  induction 1 as [|a l (b & Hb & Qb) _ (bs & Hbs & Qbs)]; simpl.
  - exists []. now split.
  - exists (b :: bs). rewrite Hb, Hbs. split; [reflexivity | now constructor].
Qed.

Lemma project_stage_incl (ps : list path) (rows : list doc) :
  project_stage ps [] rows = Ok (map (project_incl ps) rows).
Proof. now apply mapM_ok_map. Qed.

Lemma include_fields_no_key (ps : list path) (k : string) (fs : doc) :
  tails k ps = [] -> field k (include_fields ps fs) = None.
Proof.
  intros Hk. induction fs as [|[k0 x] fs IH]; simpl; [reflexivity|].
  destruct (tails k0 ps) as [|t ts] eqn:E; [exact IH|].
  assert (Hne : String.eqb k k0 = false).
  { destruct (String.eqb_spec k k0) as [->|]; [congruence|reflexivity]. }
  destruct (has_leaf (t :: ts)).
  - simpl. now rewrite Hne.
  - destruct (include (t :: ts) x); simpl; [now rewrite Hne | exact IH].
Qed.

Lemma set_nested_field_other (p : path) (e : value) (d : doc) (k : string) :
  hd_error p <> Some k -> field k (set_nested p e d) = field k d.
Proof.
  destruct p as [|k0 rest]; intros Hk; [reflexivity|].
  assert (Hne : k <> k0) by (intros ->; now apply Hk).
  cbn [set_nested]. destruct rest as [|k1 rest].
  - now apply field_set_field_other.
  - destruct (field k0 d) as [[| | | | | | |fs]|]; try reflexivity.
    now apply field_set_field_other.
Qed.

Lemma unwind_row_field (p : path) (d r : doc) (k : string) :
  hd_error p <> Some k -> In r (unwind_row p d) -> field k r = field k d.
Proof.
  intros Hk. unfold unwind_row.
  destruct (get_nested p d) as [[| | | | | |es|]|]; simpl;
    try (intros [<-|[]]; reflexivity); try (intros []).
  intros Hin. apply in_map_iff in Hin as (e & <- & _).
  now apply set_nested_field_other.
Qed.

Lemma unwind_rows_no_field (p : path) (k : string) (rows : list doc) :
  hd_error p <> Some k ->
  Forall (fun d => field k d = None) rows ->
  Forall (fun d => field k d = None) (unwind_rows p rows).
Proof.
  intros Hk Hall. apply Forall_forall. intros r Hin.
  apply in_flat_map in Hin as (d & Hd & Hr).
  rewrite (unwind_row_field p d r k Hk Hr).
  now apply (proj1 (Forall_forall _ _) Hall).
Qed.

Lemma match_rows_Forall (P : doc -> Prop) (q : query) (rows : list doc) :
  Forall P rows -> Forall P (match_rows q rows).
Proof.
  intros H. apply Forall_forall. intros r Hin.
  apply filter_In in Hin as [Hin _]. now apply (proj1 (Forall_forall _ _) H).
Qed.

Lemma run_first_seven (cc opps : list doc) :
  run (firstn 7 (pipeline cc)) opps = Ok (rows_at_loop_match opps).
Proof.
  cbn [pipeline firstn run match_stage unwind_stage bind].
  rewrite project_stage_incl. reflexivity.
Qed.

Lemma rows_at_loop_match_no_clientWinner (opps : list doc) :
  Forall (fun d => field "clientWinner" d = None) (rows_at_loop_match opps).
Proof.
  unfold rows_at_loop_match.
  do 2 (apply unwind_rows_no_field; [discriminate|]).
  apply match_rows_Forall.
  do 2 (apply unwind_rows_no_field; [discriminate|]).
  apply Forall_forall. intros r Hin.
  apply in_map_iff in Hin as (d & <- & _).
  now apply include_fields_no_key.
Qed.

Lemma q_client_lost_needs_field (d : doc) :
  field "clientWinner" d = None -> q_client_lost d = false.
Proof.
  intros H. unfold q_client_lost, qAnd. cbn [forallb].
  unfold qEq at 1, holds. cbn [leaves]. rewrite H. reflexivity.
Qed.

Lemma q_loop_two_branches (d : doc) :
  field "clientWinner" d = None -> q_loop d = q_loop_two d.
Proof.
  intros H. unfold q_loop, q_loop_two, qOr. cbn [existsb].
  rewrite (q_client_lost_needs_field d H). now rewrite !orb_false_r.
Qed.

(** ** The computed fields of stage 9 *)

Lemma e_competitorWinner_false (d : doc) :
  field "clientWinner" d = None -> e_competitorWinner d = Ok (Some (VBool false)).
Proof.
  intros H. unfold e_competitorWinner.
  unfold eEq at 1. unfold eCmp. unfold eAnd. cbn [and_list].
  unfold eEq at 1. unfold eField at 1. cbn [get_in]. rewrite H.
  reflexivity.
Qed.

Lemma add_computed_competitorWinner (d out : doc) :
  field "clientWinner" d = None ->
  exists r, add_computed computed d out = Ok r /\
            field "competitorWinner" r = Some (VBool false).
Proof.
  intros H. unfold computed. cbn [add_computed].
  unfold eIfNull, eField. cbn [bind].
  destruct (nullish (get_in ["contacts"; "questions"; "criteria_value"] d));
    cbn [bind];
    rewrite (e_competitorWinner_false d H); cbn [bind];
    eexists; (split; [reflexivity | apply field_set_field_same]).
Qed.

Lemma run_first_eight (cc opps : list doc) :
  run (firstn 8 (pipeline cc)) opps = Ok (match_rows q_loop (rows_at_loop_match opps)).
Proof.
  change (firstn 8 (pipeline cc))
    with (firstn 7 (pipeline cc) ++ [match_stage q_loop]).
  rewrite run_app, run_first_seven. reflexivity.
Qed.

(** ** The ceiling filter of stages 5 to 8 *)

Lemma bounded_selection_app (r1 r2 : list doc) :
  bounded_selection (r1 ++ r2) = bounded_selection r1 ++ bounded_selection r2.
Proof.
  unfold bounded_selection, match_rows, unwind_rows.
  now rewrite filter_app, !flat_map_app, filter_app.
Qed.

Lemma run_stages_5_to_8 (cc rows : list doc) :
  run (firstn 4 (skipn 4 (pipeline cc))) rows = Ok (bounded_selection rows).
Proof. reflexivity. Qed.

(** ** The correlated lookup *)

Lemma include_fields_leaf (ps : list path) (k : string) (fs : doc) :
  has_leaf (tails k ps) = true -> field k (include_fields ps fs) = field k fs.
Proof.
  intros Hk. induction fs as [|[k0 x] fs IH]; simpl; [reflexivity|].
  destruct (String.eqb_spec k k0) as [<-|Hne].
  - destruct (tails k ps) as [|t ts]; [discriminate Hk|].
    rewrite Hk. simpl. now rewrite String.eqb_refl.
  - assert (E : String.eqb k k0 = false) by now apply String.eqb_neq.
    destruct (tails k0 ps) as [|t ts]; [exact IH|].
    destruct (has_leaf (t :: ts)).
    + simpl. now rewrite E.
    + destruct (include (t :: ts) x); simpl; [now rewrite E | exact IH].
Qed.

Lemma match_expr_rows_value (v1 : option value) (rows : list doc) :
  match_expr_rows (eEq (eField ["value"]) (eVar v1)) rows
  = Ok (filter (value_is v1) rows).
Proof.
  induction rows as [|d rows IH]; [reflexivity|].
  cbn [match_expr_rows filter]. rewrite IH.
  unfold qExpr, eEq, eField, eVar, value_is. cbn [bind get_in truthy].
  now destruct (is_eq (compare_opt (field "value" d) v1)).
Qed.

Lemma run_criteria_pipeline (v1 : option value) (cc : list doc) :
  run (criteria_pipeline v1) cc = Ok (criteria_for v1 cc).
Proof.
  unfold criteria_pipeline, criteria_for.
  cbn [run match_stage bind]. rewrite project_stage_incl. cbn [bind].
  rewrite match_expr_rows_value. reflexivity.
Qed.

Lemma lookup_criteria_rows (cc rows : list doc) :
  lookup_criteria cc rows
  = Ok (map (fun d => set_field "criteria"
                        (VArr (map VDoc (criteria_for (field "criteria_value" d) cc))) d)
            rows).
Proof.
  unfold lookup_criteria, lookup_stage. apply mapM_ok_map. intros d.
  unfold lookup_row, eField. cbn [bind get_in].
  now rewrite run_criteria_pipeline.
Qed.

(** The nested and the top-level definitions that the expressions of
    [$group] read from the [criteria] array. *)
Lemma get_in_step (k0 k : string) (rest : path) (d : doc) :
  get_in (k0 :: k :: rest) d
  = match field k0 d with
    | Some (VDoc fs) => get_in (k :: rest) fs
    | Some (VArr vs) =>
        Some (VArr
          (flat_map
             (fun e =>
                match e with
                | VDoc fs =>
                    match get_in (k :: rest) fs with Some x => [x] | None => [] end
                | _ => []
                end) vs))
    | _ => None
    end.
Proof. reflexivity. Qed.

Lemma flat_map_docs (p : path) (cs : list doc) :
  flat_map
    (fun e =>
       match e with
       | VDoc fs => match get_in p fs with Some x => [x] | None => [] end
       | _ => []
       end) (map VDoc cs)
  = present (map (get_in p) cs).
Proof.
  induction cs as [|c cs IH]; [reflexivity|].
  cbn [map flat_map]. rewrite IH. reflexivity.
Qed.

Lemma get_in_criteria (rest : path) (d : doc) (cs : list doc) (k : string) :
  field "criteria" d = Some (VArr (map VDoc cs)) ->
  get_in ("criteria" :: k :: rest) d
  = Some (VArr (present (map (get_in (k :: rest)) cs))).
Proof.
  intros H. rewrite get_in_step, H. now rewrite flat_map_docs.
Qed.


Lemma nested_absent_head (cs : list doc) :
  (forall c, In c cs ->
     get_in ["versions"; "definition"] c = None \/
     get_in ["versions"; "definition"] c = Some (VArr [])) ->
  present (map (get_in ["versions"; "definition"]) cs) = [] \/
  exists l, present (map (get_in ["versions"; "definition"]) cs) = VArr [] :: l.
Proof.
  induction cs as [|c cs IH]; intros H; [now left|].
  cbn [map present flat_map].
  destruct (H c (or_introl eq_refl)) as [-> | ->].
  - apply IH. intros c' Hc'. apply H. now right.
  - right. eexists. reflexivity.
Qed.

Lemma e_definition_fallback (d : doc) (cs : list doc) :
  field "criteria" d = Some (VArr (map VDoc cs)) ->
  (forall c, In c cs ->
     get_in ["versions"; "definition"] c = None \/
     get_in ["versions"; "definition"] c = Some (VArr [])) ->
  e_definition d = Ok (hd_error (present (map (field "definition") cs))).
Proof.
  intros Hc Habs. unfold e_definition, eIfNull, eArrayElemAt, eField.
  rewrite (get_in_criteria ["definition"] d cs "versions" Hc).
  rewrite (get_in_criteria [] d cs "definition" Hc).
  cbn [bind].
  destruct (nested_absent_head cs Habs) as [-> | (l & ->)];
    cbn [elem_at Z.leb Z.compare Z.to_nat nth_error bind nullish is_null];
    change (get_in ["definition"]) with (field "definition"); reflexivity.
Qed.

(** ** From the rows of [$group] to the returned rows *)

Lemma mapM_In {A B : Type} (f : A -> res B) (l : list A) (bs : list B) (b : B) :
  mapM f l = Ok bs -> In b bs -> exists a, In a l /\ f a = Ok b.
Proof.
  revert bs. induction l as [|a l IH]; intros bs H Hin; simpl in H.
  - injection H as <-. destruct Hin.
  - destruct (f a) as [b0|] eqn:Ea; simpl in H; [|discriminate H].
    destruct (mapM f l) as [bs0|]; simpl in H; [|discriminate H].
    injection H as <-. destruct Hin as [<- | Hin].
    + exists a. split; [now left | exact Ea].
    + destruct (IH bs0 eq_refl Hin) as (a' & Ha' & Hf).
      exists a'. split; [now right | exact Hf].
Qed.

Lemma add_to_bucket_In (k : value) (d : doc) (bs : list (value * list doc))
    (b : value * list doc) (x : doc) :
  In b (add_to_bucket k d bs) -> In x (snd b) ->
  x = d \/ exists b0, In b0 bs /\ In x (snd b0).
Proof.
  induction bs as [|[k0 ds] bs IH]; simpl; intros Hb Hx.
  - destruct Hb as [<- | []]. simpl in Hx. destruct Hx as [<- | []]. now left.
  - destruct (value_eqb k k0).
    + destruct Hb as [<- | Hb].
      * simpl in Hx. apply in_app_or in Hx as [Hx | [<- | []]]; [|now left].
        right. exists (k0, ds). split; [now left | exact Hx].
      * right. exists b. split; [now right | exact Hx].
    + destruct Hb as [<- | Hb].
      * right. exists (k0, ds). split; [now left | exact Hx].
      * destruct (IH Hb Hx) as [-> | (b0 & Hb0 & Hx0)]; [now left|].
        right. exists b0. split; [now right | exact Hx0].
Qed.

Lemma fold_buckets_In (keyed : list (value * doc)) :
  forall (acc : list (value * list doc)) (b : value * list doc) (x : doc),
    In b (fold_left (fun bs kd => add_to_bucket (fst kd) (snd kd) bs) keyed acc) ->
    In x (snd b) ->
    In x (map snd keyed) \/ exists b0, In b0 acc /\ In x (snd b0).
Proof.
  induction keyed as [|[k d] keyed IH]; intros acc b x Hb Hx; simpl in Hb.
  - right. now exists b.
  - destruct (IH _ b x Hb Hx) as [Hin | (b0 & Hb0 & Hx0)].
    + left. now right.
    + destruct (add_to_bucket_In k d acc b0 x Hb0 Hx0) as [-> | Hacc].
      * left. now left.
      * now right.
Qed.

Lemma buckets_In (keyed : list (value * doc)) (b : value * list doc) (x : doc) :
  In b (buckets keyed) -> In x (snd b) -> In x (map snd keyed).
Proof.
  intros Hb Hx.
  destruct (fold_buckets_In keyed [] b x Hb Hx) as [H | (b0 & [] & _)]. exact H.
Qed.

Lemma group_key_rows (id : expr) (rows : list doc) (keyed : list (value * doc)) :
  mapM (group_key id) rows = Ok keyed -> map snd keyed = rows.
Proof.
  revert keyed. induction rows as [|d rows IH]; intros keyed H; simpl in H.
  - now injection H as <-.
  - unfold group_key at 1 in H. destruct (id d); simpl in H; [|discriminate H].
    destruct (mapM (group_key id) rows) as [ks|]; simpl in H; [|discriminate H].
    injection H as <-. simpl. f_equal. now apply IH.
Qed.

Lemma present_In (xs : list (option value)) (v : value) :
  In v (present xs) <-> In (Some v) xs.
Proof.
  unfold present. rewrite in_flat_map. split.
  - intros ([x|] & Hin & Hv); simpl in Hv; [|destruct Hv].
    destruct Hv as [<- | []]. exact Hin.
  - intros H. exists (Some v). split; [exact H | now left].
Qed.

(** A group document holds under [answers] the objects that [e_answer]
    builds from the rows of the group. *)
Lemma group_doc_answers (b : value * list doc) (g : doc) :
  group_doc
    [ ("answer_value", AccFirst (eField p_answer_value));
      ("answer_text", AccFirst (eField p_answer_text));
      ("answers", AccPush e_answer);
      ("count", AccSum (eLit (VNum 1))) ] b = Ok g ->
  exists xs, mapM e_answer (snd b) = Ok xs /\
             field "answers" g = Some (VArr (present xs)).
Proof.
  unfold group_doc. cbn [acc_fields acc_value].
  destruct (mapM (eField p_answer_value) (snd b)); cbn [bind]; [|discriminate].
  destruct (mapM (eField p_answer_text) (snd b)); cbn [bind]; [|discriminate].
  destruct (mapM e_answer (snd b)) as [xs|]; cbn [bind]; [|discriminate].
  destruct (mapM (eLit (VNum 1)) (snd b)); cbn [bind]; [|discriminate].
  intros H. injection H as <-. exists xs. split; reflexivity.
Qed.

Lemma returned_row_answers (rows : list doc) (out : list doc) (r : doc) :
  run [group_answers; unwind_stage ["answers"]; sort_stage sort_keys] rows = Ok out ->
  In r out ->
  exists d e, In d rows /\ e_answer d = Ok (Some e) /\ field "answers" r = Some e.
Proof.
  cbn [run]. unfold group_answers at 1, group_stage.
  destruct (mapM (group_key (eField p_answer_value)) rows) as [keyed|] eqn:Ek;
    cbn [bind]; [|discriminate].
  match goal with
  | |- context [mapM ?f (buckets keyed)] =>
      destruct (mapM f (buckets keyed)) as [groups|] eqn:Eg
  end; cbn [bind]; [|discriminate].
  unfold unwind_stage, sort_stage. cbn [bind]. intros H Hin. injection H as <-.
  apply (Permutation_in _ (Permutation_sym (sort_rows_perm sort_keys _))) in Hin.
  apply in_flat_map in Hin as (g & Hg & Hr).
  destruct (mapM_In _ _ _ _ Eg Hg) as (b & Hb & Hgb).
  destruct (group_doc_answers b g Hgb) as (xs & Hxs & Hans).
  unfold unwind_row in Hr. cbn [get_nested] in Hr. rewrite Hans in Hr.
  apply in_map_iff in Hr as (e & <- & He).
  apply present_In in He.
  destruct (mapM_In _ _ _ _ Hxs He) as (d & Hd & Hed).
  exists d, e. split; [|split; [exact Hed|]].
  - rewrite <- (group_key_rows _ _ _ Ek). now apply (buckets_In keyed b).
  - cbn [set_nested]. apply field_set_field_same.
Qed.

(** ** The object pushed for each row *)

Lemma obj_fields_absent (fs : list (string * expr)) (d o : doc) (k : string) :
  obj_fields fs d = Ok o -> ~ In k (map fst fs) -> field k o = None.
Proof.
  revert o. induction fs as [|[k0 e] fs IH]; intros o H Hk; simpl in H.
  - now injection H as <-.
  - destruct (e d) as [x|]; simpl in H; [|discriminate H].
    destruct (obj_fields fs d) as [rest|]; simpl in H; [|discriminate H].
    injection H as <-.
    assert (Hrest : field k rest = None).
    { apply IH; [reflexivity|]. intros Hin. apply Hk. now right. }
    destruct x as [v|]; [|exact Hrest].
    simpl. destruct (String.eqb_spec k k0) as [->|]; [|exact Hrest].
    elim Hk. now left.
Qed.

Lemma obj_fields_lookup (fs : list (string * expr)) (d o : doc) (k : string) (e : expr) :
  NoDup (map fst fs) -> obj_fields fs d = Ok o -> assoc k fs = Some e ->
  exists x, e d = Ok x /\ field k o = x.
Proof.
  revert o. induction fs as [|[k0 e0] fs IH]; intros o Hnd H Ha; simpl in *.
  - discriminate Ha.
  - inversion Hnd as [|? ? Hk0 Hnd']; subst.
    destruct (e0 d) as [x|] eqn:Ex; simpl in H; [|discriminate H].
    destruct (obj_fields fs d) as [rest|] eqn:Er; simpl in H; [|discriminate H].
    injection H as <-.
    destruct (String.eqb_spec k k0) as [->|Hne].
    + injection Ha as <-. exists x. split; [exact Ex|].
      destruct x as [v|]; simpl.
      * now rewrite String.eqb_refl.
      * now apply (obj_fields_absent fs d rest k0 Er).
    + destruct (IH rest Hnd' eq_refl Ha) as (y & Hy & Hf).
      exists y. split; [exact Hy|].
      destruct x as [v|]; [|exact Hf].
      simpl. now rewrite (proj2 (String.eqb_neq k k0) Hne).
Qed.

Lemma answer_fields_nodup : NoDup (map fst answer_fields).
Proof.
  unfold answer_fields. cbn [map fst].
  repeat (constructor; [cbn [In]; intros H;
    repeat (destruct H as [H|H]; [discriminate H|]); exact H|]).
  constructor.
Qed.

Lemma e_answer_fields (d : doc) (e : value) :
  e_answer d = Ok (Some e) ->
  exists o t df,
    e = VDoc o /\ e_text d = Ok t /\ e_definition d = Ok df /\
    field "text" o = t /\ field "definition" o = df.
Proof.
  unfold e_answer, eObj.
  destruct (obj_fields answer_fields d) as [o|] eqn:Eo; cbn [bind]; [|discriminate].
  intros H. injection H as <-.
  destruct (obj_fields_lookup answer_fields d o "text" e_text
              answer_fields_nodup Eo eq_refl) as (t & Ht & Hft).
  destruct (obj_fields_lookup answer_fields d o "definition" e_definition
              answer_fields_nodup Eo eq_refl) as (df & Hdf & Hfd).
  now exists o, t, df.
Qed.

Lemma e_text_no_match (d : doc) :
  field "criteria" d = Some (VArr []) -> e_text d = Ok None.
Proof.
  intros H. unfold e_text, eArrayElemAt, eField.
  now rewrite (get_in_criteria [] d [] "label" H).
Qed.

Lemma e_definition_no_match (d : doc) :
  field "criteria" d = Some (VArr []) -> e_definition d = Ok None.
Proof.
  intros H. rewrite (e_definition_fallback d [] H); [reflexivity|].
  intros c [].
Qed.

Lemma e_answer_no_match (d : doc) :
  field "criteria" d = Some (VArr []) ->
  exists o, e_answer d = Ok (Some (VDoc o)) /\
            field "text" o = None /\ field "definition" o = None.
Proof.
  intros H.
  assert (Hok : exists o, e_answer d = Ok (Some (VDoc o))).
  { unfold e_answer, eObj, answer_fields. cbn [obj_fields].
    rewrite (e_text_no_match d H), (e_definition_no_match d H).
    unfold eField. cbn [bind]. eexists. reflexivity. }
  destruct Hok as (o & Ho). exists o. split; [exact Ho|].
  destruct (e_answer_fields d (VDoc o) Ho) as (o' & t & df & Eo & Ht & Hdf & Hft & Hfd).
  injection Eo as <-.
  rewrite (e_text_no_match d H) in Ht. rewrite (e_definition_no_match d H) in Hdf.
  injection Ht as <-. injection Hdf as <-. now split.
Qed.

Lemma pipeline_split_group (cc : list doc) :
  pipeline cc
  = firstn 10 (pipeline cc)
    ++ [group_answers; unwind_stage ["answers"]; sort_stage sort_keys].
Proof. reflexivity. Qed.

Lemma rows_at_group_criteria (w : world) (rows : list doc) (d : doc) :
  rows_at_group w = Ok rows -> In d rows ->
  field "criteria" d
  = Some (VArr (map VDoc (criteria_for (field "criteria_value" d) (clientCriteria w)))).
Proof.
  unfold rows_at_group.
  change (firstn 10 (pipeline (clientCriteria w)))
    with (firstn 9 (pipeline (clientCriteria w)) ++ [lookup_criteria (clientCriteria w)]).
  rewrite run_app.
  destruct (run (firstn 9 (pipeline (clientCriteria w))) (opportunities w))
    as [rows9|]; cbn [bind run]; [|discriminate].
  rewrite lookup_criteria_rows. cbn [bind]. intros H Hin. injection H as <-.
  apply in_map_iff in Hin as (d0 & <- & _).
  rewrite field_set_field_same.
  now rewrite field_set_field_other by discriminate.
Qed.

Import Shape Cases.

(** ** Buckets of [$group] *)

Lemma value_eqb_eq (a b : value) : value_eqb a b = true <-> a = b.
Proof.
  unfold value_eqb, is_eq. split.
  - destruct (compare_value a b) eqn:E; try discriminate.
    intros _. now apply compare_value_eq.
  - intros ->. now rewrite compare_value_refl.
Qed.

Lemma value_eqb_refl (a : value) : value_eqb a a = true.
Proof. now apply value_eqb_eq. Qed.

Lemma bucket_rows_add (k k' : value) (d : doc) (bs : list (value * list doc)) :
  bucket_rows k (add_to_bucket k' d bs)
  = if value_eqb k' k then bucket_rows k bs ++ [d] else bucket_rows k bs.
Proof.
  induction bs as [|[k0 ds] bs IH]; simpl.
  - destruct (value_eqb k' k) eqn:E.
    + apply value_eqb_eq in E. subst. now rewrite value_eqb_refl.
    + destruct (value_eqb k k') eqn:E'; [|reflexivity].
      apply value_eqb_eq in E'. subst. now rewrite value_eqb_refl in E.
  - destruct (value_eqb k' k0) eqn:E0; simpl.
    + apply value_eqb_eq in E0. subst k0.
      destruct (value_eqb k' k) eqn:E.
      * apply value_eqb_eq in E. subst. now rewrite value_eqb_refl.
      * destruct (value_eqb k k') eqn:E'; [|reflexivity].
        apply value_eqb_eq in E'. subst. now rewrite value_eqb_refl in E.
    + destruct (value_eqb k k0) eqn:Ek; [|exact IH].
      apply value_eqb_eq in Ek. subst k0. now rewrite E0.
Qed.

Lemma bucket_rows_fold (k : value) (keyed : list (value * doc)) :
  forall acc,
    bucket_rows k
      (fold_left (fun bs kd => add_to_bucket (fst kd) (snd kd) bs) keyed acc)
    = bucket_rows k acc
      ++ map snd (filter (fun kd => value_eqb (fst kd) k) keyed).
Proof.
  induction keyed as [|[k' d] keyed IH]; intros acc; simpl.
  - now rewrite app_nil_r.
  - rewrite IH, bucket_rows_add.
    destruct (value_eqb k' k); simpl; [now rewrite <- app_assoc | reflexivity].
Qed.

Lemma add_to_bucket_keys (k : value) (d : doc) (bs : list (value * list doc)) :
  map fst (add_to_bucket k d bs)
  = if existsb (value_eqb k) (map fst bs) then map fst bs else map fst bs ++ [k].
Proof.
  induction bs as [|[k0 ds] bs IH]; simpl; [reflexivity|].
  destruct (value_eqb k k0); simpl; [reflexivity|].
  rewrite IH. now destruct (existsb (value_eqb k) (map fst bs)).
Qed.

Lemma add_to_bucket_nodup (k : value) (d : doc) (bs : list (value * list doc)) :
  NoDup (map fst bs) -> NoDup (map fst (add_to_bucket k d bs)).
Proof.
  intros H. rewrite add_to_bucket_keys.
  destruct (existsb (value_eqb k) (map fst bs)) eqn:E; [exact H|].
  apply NoDup_app; [exact H | repeat constructor; intros [] |].
  intros x Hx [Ex | []]. subst x.
  assert (Ht : existsb (value_eqb k) (map fst bs) = true).
  { apply existsb_exists. exists k. split; [exact Hx | apply value_eqb_refl]. }
  congruence.
Qed.

Lemma fold_buckets_nodup (keyed : list (value * doc)) :
  forall acc,
    NoDup (map fst acc) ->
    NoDup (map fst
      (fold_left (fun bs kd => add_to_bucket (fst kd) (snd kd) bs) keyed acc)).
Proof.
  induction keyed as [|[k d] keyed IH]; intros acc H; simpl; [exact H|].
  apply IH. now apply add_to_bucket_nodup.
Qed.

Lemma bucket_rows_In (bs : list (value * list doc)) (b : value * list doc) :
  NoDup (map fst bs) -> In b bs -> bucket_rows (fst b) bs = snd b.
Proof.
  induction bs as [|[k0 ds] bs IH]; intros Hnd Hin; [destruct Hin|].
  simpl in Hnd. inversion Hnd as [|? ? Hk0 Hnd']; subst.
  simpl. destruct Hin as [<- | Hin].
  - simpl. now rewrite value_eqb_refl.
  - destruct (value_eqb (fst b) k0) eqn:E; [|now apply IH].
    apply value_eqb_eq in E. subst k0. elim Hk0. now apply in_map.
Qed.

Lemma buckets_spec (keyed : list (value * doc)) (b : value * list doc) :
  In b (buckets keyed) ->
  snd b = map snd (filter (fun kd => value_eqb (fst kd) (fst b)) keyed).
Proof.
  intros Hin. unfold buckets in *.
  rewrite <- (bucket_rows_In _ b (fold_buckets_nodup keyed [] (NoDup_nil _)) Hin).
  now rewrite bucket_rows_fold.
Qed.

Lemma buckets_nodup (keyed : list (value * doc)) : NoDup (map fst (buckets keyed)).
Proof. apply fold_buckets_nodup. constructor. Qed.

Lemma add_to_bucket_nonempty (k : value) (d : doc) (bs : list (value * list doc)) :
  Forall (fun b => snd b <> []) bs ->
  Forall (fun b => snd b <> []) (add_to_bucket k d bs).
Proof.
  induction 1 as [|[k0 ds] bs Hb Hbs IH]; simpl.
  - constructor; [discriminate | constructor].
  - destruct (value_eqb k k0).
    + constructor; [|exact Hbs]. simpl. now destruct ds.
    + constructor; [exact Hb | exact IH].
Qed.

Lemma buckets_nonempty (keyed : list (value * doc)) :
  Forall (fun b => snd b <> []) (buckets keyed).
Proof.
  unfold buckets. generalize (Forall_nil (fun b : value * list doc => snd b <> [])).
  generalize (@nil (value * list doc)).
  induction keyed as [|[k d] keyed IH]; intros acc H; simpl; [exact H|].
  apply IH. now apply add_to_bucket_nonempty.
Qed.

(** ** The group stage *)

Lemma mapM_Forall2 {A B : Type} (f : A -> res B) (l : list A) (bs : list B) :
  mapM f l = Ok bs -> Forall2 (fun a b => f a = Ok b) l bs.
Proof.
  revert bs. induction l as [|a l IH]; intros bs H; simpl in H.
  - injection H as <-. constructor.
  - destruct (f a) as [b|] eqn:Ea; simpl in H; [|discriminate H].
    destruct (mapM f l) as [bs0|]; simpl in H; [|discriminate H].
    injection H as <-. constructor; [exact Ea | now apply IH].
Qed.

Lemma group_keys (rows : list doc) :
  mapM (group_key (eField p_answer_value)) rows
  = Ok (map (fun d => (key_of d, d)) rows).
Proof. now apply mapM_ok_map. Qed.

Lemma keyed_group_rows (k : value) (rows : list doc) :
  map snd (filter (fun kd => value_eqb (fst kd) k)
                  (map (fun d => (key_of d, d)) rows))
  = group_rows k rows.
Proof.
  unfold group_rows. induction rows as [|d rows IH]; simpl; [reflexivity|].
  destruct (value_eqb (key_of d) k); simpl; now rewrite IH.
Qed.

Lemma e_answer_obj (d : doc) (x : option value) :
  e_answer d = Ok x -> exists o, x = Some (VDoc o).
Proof.
  unfold e_answer, eObj. destruct (obj_fields answer_fields d) as [o|]; simpl;
    [|discriminate].
  intros H. injection H as <-. now exists o.
Qed.

Lemma pushed_objects (ds : list doc) (xs : list (option value)) :
  mapM e_answer ds = Ok xs ->
  exists objs,
    Forall2 (fun d o => e_answer d = Ok (Some (VDoc o))) ds objs /\
    present xs = map VDoc objs.
Proof.
  intros H. apply mapM_Forall2 in H.
  induction H as [|d x ds xs Hd _ (objs & Hobjs & Hp)].
  - exists []. split; [constructor | reflexivity].
  - destruct (e_answer_obj d x Hd) as (o & ->).
    exists (o :: objs). split; [now constructor|].
    unfold present in *. simpl. now rewrite Hp.
Qed.

Lemma sum_ones_from (ds : list doc) (s : Z) :
  fold_left (fun s x => match x with Some (VNum n) => (s + n)%Z | _ => s end)
            (map (fun _ : doc => Some (VNum 1)) ds) s
  = (s + Z.of_nat (List.length ds))%Z.
Proof.
  revert s. induction ds as [|d ds IH]; intros s; simpl List.length; simpl map;
    simpl fold_left.
  - lia.
  - rewrite IH. lia.
Qed.

Lemma group_doc_spec (k : value) (ds : list doc) (g : doc) :
  ds <> [] ->
  (forall d, In d ds -> key_of d = k) ->
  group_doc
    [ ("answer_value", AccFirst (eField p_answer_value));
      ("answer_text", AccFirst (eField p_answer_text));
      ("answers", AccPush e_answer);
      ("count", AccSum (eLit (VNum 1))) ] (k, ds) = Ok g ->
  exists objs,
    Forall2 (fun d o => e_answer d = Ok (Some (VDoc o))) ds objs /\
    g = group_of k (first_text ds) objs (Z.of_nat (List.length ds)).
Proof.
  intros Hne Hkey. unfold group_doc. cbn [acc_fields acc_value snd fst].
  rewrite (mapM_ok_map (eField p_answer_value) (get_in p_answer_value))
    by reflexivity.
  rewrite (mapM_ok_map (eField p_answer_text) (get_in p_answer_text))
    by reflexivity.
  rewrite (mapM_ok_map (eLit (VNum 1)) (fun _ => Some (VNum 1))) by reflexivity.
  cbn [bind].
  destruct (mapM e_answer ds) as [xs|] eqn:Exs; cbn [bind]; [|discriminate].
  intros H. injection H as <-.
  destruct (pushed_objects ds xs Exs) as (objs & Hobjs & Hp).
  exists objs. split; [exact Hobjs|].
  unfold group_of, sum_nums. rewrite Hp, sum_ones_from.
  destruct ds as [|d ds]; [now elim Hne|].
  cbn [map first_text]. rewrite <- (Hkey d (or_introl eq_refl)). reflexivity.
Qed.

Lemma group_rows_key (k : value) (rows : list doc) (d : doc) :
  In d (group_rows k rows) -> In d rows /\ key_of d = k.
Proof.
  unfold group_rows. intros H. apply filter_In in H as [Hin Hk].
  split; [exact Hin | now apply value_eqb_eq].
Qed.

Lemma bucket_rows_found (k : value) (bs : list (value * list doc)) :
  bucket_rows k bs <> [] -> In k (map fst bs).
Proof.
  induction bs as [|[k0 ds] bs IH]; simpl; [now intros H; elim H|].
  destruct (value_eqb k k0) eqn:E.
  - intros _. left. symmetry. now apply value_eqb_eq.
  - intros H. right. now apply IH.
Qed.

Lemma group_stage_groups (rows groups : list doc) :
  group_answers rows = Ok groups ->
  Forall2 (fun b g => group_doc
    [ ("answer_value", AccFirst (eField p_answer_value));
      ("answer_text", AccFirst (eField p_answer_text));
      ("answers", AccPush e_answer);
      ("count", AccSum (eLit (VNum 1))) ] b = Ok g)
    (buckets (map (fun d => (key_of d, d)) rows)) groups.
Proof.
  unfold group_answers, group_stage. rewrite group_keys. cbn [bind].
  apply mapM_Forall2.
Qed.

Lemma group_doc_id (accs : list (string * accumulator)) (b : value * list doc)
    (g : doc) :
  group_doc accs b = Ok g -> field "_id" g = Some (fst b).
Proof.
  unfold group_doc. destruct (acc_fields accs (snd b)); simpl; [|discriminate].
  intros H. now injection H as <-.
Qed.

Lemma groups_ids (accs : list (string * accumulator))
    (bs : list (value * list doc)) (groups : list doc) :
  Forall2 (fun b g => group_doc accs b = Ok g) bs groups ->
  map (field "_id") groups = map (fun b => Some (fst b)) bs.
Proof.
  induction 1 as [|b g bs groups Hb _ IH]; simpl; [reflexivity|].
  now rewrite IH, (group_doc_id accs b g Hb).
Qed.

Lemma NoDup_map_Some {A : Type} (l : list A) : NoDup l -> NoDup (map Some l).
Proof.
  induction 1 as [|a l Ha _ IH]; simpl; constructor; [|exact IH].
  intros Hin. apply in_map_iff in Hin as (x & Hx & Hin). injection Hx as ->.
  contradiction.
Qed.

Lemma Forall2_In_r {A B : Type} (R : A -> B -> Prop) (l : list A) (l' : list B)
    (b : B) :
  Forall2 R l l' -> In b l' -> exists a, In a l /\ R a b.
Proof.
  induction 1 as [|a0 b0 l l' H0 _ IH]; intros Hin; [destruct Hin|].
  destruct Hin as [<- | Hin].
  - exists a0. split; [now left | exact H0].
  - destruct (IH Hin) as (a & Ha & HR). exists a. split; [now right | exact HR].
Qed.

Lemma Forall2_In_l {A B : Type} (R : A -> B -> Prop) (l : list A) (l' : list B)
    (a : A) :
  Forall2 R l l' -> In a l -> exists b, In b l' /\ R a b.
Proof.
  induction 1 as [|a0 b0 l l' H0 _ IH]; intros Hin; [destruct Hin|].
  destruct Hin as [<- | Hin].
  - exists b0. split; [now left | exact H0].
  - destruct (IH Hin) as (b & Hb & HR). exists b. split; [now right | exact HR].
Qed.

Lemma filter_length_perm {A : Type} (f : A -> bool) (l l' : list A) :
  Permutation l l' -> List.length (filter f l) = List.length (filter f l').
Proof.
  induction 1 as [|x l l' _ IH|x y l|l l1 l2 _ IH1 _ IH2]; simpl.
  - reflexivity.
  - destruct (f x); simpl; now rewrite IH.
  - destruct (f x), (f y); reflexivity.
  - now rewrite IH1.
Qed.

(** What a group document holds, read off the rows of its key. *)
Lemma group_answers_content (rows groups : list doc) (g : doc) :
  group_answers rows = Ok groups -> In g groups ->
  exists k objs,
    group_rows k rows <> [] /\
    Forall2 (fun d o => e_answer d = Ok (Some (VDoc o))) (group_rows k rows) objs /\
    g = group_of k (first_text (group_rows k rows)) objs
          (Z.of_nat (List.length (group_rows k rows))).
Proof.
  intros Hg Hin. apply group_stage_groups in Hg.
  destruct (Forall2_In_r _ _ _ g Hg Hin) as ([k ds] & Hb & Hdoc).
  pose proof (buckets_spec _ _ Hb) as Hds. cbn [fst snd] in Hds.
  rewrite keyed_group_rows in Hds.
  pose proof (proj1 (Forall_forall _ _) (buckets_nonempty _) _ Hb) as Hne.
  cbn [snd] in Hne.
  exists k. subst ds.
  destruct (group_doc_spec k (group_rows k rows) g Hne) as (objs & Hobjs & ->).
  - intros d Hd. now apply (group_rows_key k rows d).
  - exact Hdoc.
  - exists objs. now repeat split.
Qed.

Lemma group_answers_ids (rows groups : list doc) :
  group_answers rows = Ok groups ->
  NoDup (map (field "_id") groups) /\
  forall d, In d rows -> In (Some (key_of d)) (map (field "_id") groups).
Proof.
  intros Hg. apply group_stage_groups in Hg.
  rewrite (groups_ids _ _ _ Hg). split.
  - rewrite <- (map_map fst Some). apply NoDup_map_Some, buckets_nodup.
  - intros d Hd. rewrite <- (map_map fst Some). apply in_map.
    apply bucket_rows_found. unfold buckets. rewrite bucket_rows_fold.
    cbn [bucket_rows app]. rewrite keyed_group_rows.
    intros Hnil.
    assert (Hin : In d (group_rows (key_of d) rows)).
    { unfold group_rows. apply filter_In. split; [exact Hd | apply value_eqb_refl]. }
    rewrite Hnil in Hin. destruct Hin.
Qed.

(** ** From the group documents to the returned rows *)

Lemma unwind_row_group (k t : value) (objs : list doc) (n : Z) :
  unwind_row ["answers"] (group_of k t objs n)
  = map (fun o => returned_row k t o n) objs.
Proof.
  unfold unwind_row. cbn [get_nested group_of field String.eqb Ascii.eqb Bool.eqb].
  rewrite map_map. apply map_ext. intros o. reflexivity.
Qed.

Lemma run_tail_groups (rows out : list doc) :
  run [group_answers; unwind_stage ["answers"]; sort_stage sort_keys] rows = Ok out ->
  exists groups,
    group_answers rows = Ok groups /\
    out = sort_rows sort_keys (unwind_rows ["answers"] groups).
Proof.
  cbn [run]. destruct (group_answers rows) as [groups|]; cbn [bind]; [|discriminate].
  unfold unwind_stage, sort_stage. cbn [bind]. intros H. injection H as <-.
  now exists groups.
Qed.

Lemma task_3_1_tail (w : world) (out : list doc) :
  fst (task_3_1 w) = Ok out ->
  exists rows groups,
    rows_at_group w = Ok rows /\
    group_answers rows = Ok groups /\
    out = sort_rows sort_keys (unwind_rows ["answers"] groups).
Proof.
  intros Hout. rewrite task_3_1_result, pipeline_split_group, run_app in Hout.
  fold (rows_at_group w) in Hout.
  destruct (rows_at_group w) as [rows|]; cbn [bind] in Hout; [|discriminate Hout].
  destruct (run_tail_groups rows out Hout) as (groups & Hg & ->).
  now exists rows, groups.
Qed.

Lemma e_answer_answer_value (d o : doc) :
  e_answer d = Ok (Some (VDoc o)) ->
  field "answer_value" o = get_in p_answer_value d.
Proof.
  unfold e_answer, eObj.
  destruct (obj_fields answer_fields d) as [o'|] eqn:Eo; cbn [bind]; [|discriminate].
  intros H. injection H as <-.
  destruct (obj_fields_lookup answer_fields d o' "answer_value"
              (eField p_answer_value) answer_fields_nodup Eo eq_refl)
    as (x & Hx & Hf).
  unfold eField in Hx. injection Hx as <-. exact Hf.
Qed.

Lemma has_id_returned_row (k k' t : value) (o : doc) (n : Z) :
  has_id k (returned_row k' t o n) = value_eqb k' k.
Proof. reflexivity. Qed.

Lemma filter_has_id_group (k k' t : value) (objs : list doc) (n : Z) :
  List.length (filter (has_id k) (unwind_row ["answers"] (group_of k' t objs n)))
  = if value_eqb k' k then List.length objs else 0%nat.
Proof.
  rewrite unwind_row_group.
  induction objs as [|o objs IH]; simpl.
  - now destruct (value_eqb k' k).
  - rewrite has_id_returned_row. destruct (value_eqb k' k); simpl; now rewrite IH.
Qed.

Lemma count_in_groups (rows groups : list doc) (k : value) :
  (forall g, In g groups ->
     exists k' objs,
       Forall2 (fun d o => e_answer d = Ok (Some (VDoc o))) (group_rows k' rows) objs /\
       g = group_of k' (first_text (group_rows k' rows)) objs
             (Z.of_nat (List.length (group_rows k' rows)))) ->
  NoDup (map (field "_id") groups) ->
  List.length (filter (has_id k) (unwind_rows ["answers"] groups))
  = if existsb (fun g => has_id k g) groups
    then List.length (group_rows k rows) else 0%nat.
Proof.
  intros Hall Hnd. induction groups as [|g groups IH]; [reflexivity|].
  unfold unwind_rows in *. cbn [flat_map existsb]. rewrite filter_app, length_app.
  simpl in Hnd. inversion Hnd as [|? ? Hg Hnd']; subst.
  rewrite IH; [|intros g' Hg'; apply Hall; now right | exact Hnd'].
  destruct (Hall g (or_introl eq_refl)) as (k' & objs & Hobjs & ->).
  rewrite filter_has_id_group.
  change (has_id k (group_of k' (first_text (group_rows k' rows)) objs
                      (Z.of_nat (List.length (group_rows k' rows)))))
    with (value_eqb k' k).
  destruct (value_eqb k' k) eqn:E; cbn [orb].
  - apply value_eqb_eq in E. subst k'.
    assert (Hno : existsb (fun g => has_id k g) groups = false).
    { destruct (existsb (fun g => has_id k g) groups) eqn:Ex; [|reflexivity].
      apply existsb_exists in Ex as (g' & Hg' & Hid). elim Hg.
      apply in_map_iff. exists g'. split; [|exact Hg'].
      unfold has_id in Hid. destruct (field "_id" g') as [v|]; [|discriminate].
      apply value_eqb_eq in Hid. now subst. }
    rewrite Hno, Nat.add_0_r. symmetry. now apply (Forall2_length Hobjs).
  - reflexivity.
Qed.

(** ** Stages 1 to 10 return rows *)

Lemma run_first_nine_ok (cc opps : list doc) :
  exists rows9, run (firstn 9 (pipeline cc)) opps = Ok rows9.
Proof.
  change (firstn 9 (pipeline cc))
    with (firstn 8 (pipeline cc) ++ [project_stage keep_list computed]).
  rewrite run_app, run_first_eight. cbn [bind run].
  destruct (mapM_Forall (project_row keep_list computed) (fun _ => True)
              (match_rows q_loop (rows_at_loop_match opps))) as (rows9 & Hrun & _).
  { apply match_rows_Forall.
    eapply Forall_impl; [|apply rows_at_loop_match_no_clientWinner].
    intros d Hd.
    destruct (add_computed_competitorWinner d (project_incl keep_list d) Hd)
      as (r & Hr & _).
    now exists r. }
  exists rows9. unfold project_stage. now rewrite Hrun.
Qed.

Lemma rows_at_group_ok (w : world) : exists rows, rows_at_group w = Ok rows.
Proof.
  unfold rows_at_group.
  change (firstn 10 (pipeline (clientCriteria w)))
    with (firstn 9 (pipeline (clientCriteria w)) ++ [lookup_criteria (clientCriteria w)]).
  rewrite run_app.
  destruct (run_first_nine_ok (clientCriteria w) (opportunities w)) as (rows9 & ->).
  cbn [bind run]. rewrite lookup_criteria_rows. cbn [bind]. eexists. reflexivity.
Qed.

(** ** The exclusion rule of stage 5 *)

Lemma is_eq_z (x y : Z) : is_eq (x ?= y)%Z = (x =? y)%Z.
Proof. now rewrite Z.eqb_compare. Qed.

Lemma is_eq_string (x y : string) : is_eq (String.compare x y) = (x =? y)%string.
Proof.
  destruct (String.eqb_spec x y) as [->|Hne].
  - now rewrite string_compare_refl.
  - destruct (String.compare x y) eqn:E; try reflexivity.
    apply String.compare_eq_iff in E. contradiction.
Qed.

Lemma gte_z (n c : Z) :
  match (n ?= c)%Z with Lt => false | _ => true end = (c <=? n)%Z.
Proof.
  unfold Z.leb. rewrite (Z.compare_antisym n c). now destruct (n ?= c)%Z.
Qed.

Lemma q_loop_hit (l : loop_spec) :
  qAnd [ qEq ["is_selected"] (VBool true);
         qOr [ qIn ["loop_instance"] value_set; qEq ["loop_text"] vendor ] ]
       [("loop_instance", VNum (l_ins l)); ("is_selected", VBool (l_sel l));
        ("loop_text", VStr (l_text l))]
  = loop_hits l.
Proof.
  unfold loop_hits. destruct l as [ins sel text]. cbn [l_ins l_sel l_text].
  unfold qAnd, qOr, qEq, qIn, holds, no_leaf, value_set, vendor.
  cbn [forallb existsb leaves field String.eqb Ascii.eqb Bool.eqb with_elems
       is_null andb orb value_eqb compare_value].
  unfold value_eqb. cbn [compare_value].
  rewrite is_eq_z, is_eq_string, (String.eqb_sym "ADP" text).
  destruct sel; cbn; now rewrite ?orb_false_r, ?andb_true_r.
Qed.

Lemma q_answer_excludes (a : answer_spec) :
  qAnd [ qGte ["primary_answer_value"] ceiling;
         qElemMatch ["loopInstances"]
           (qAnd [ qEq ["is_selected"] (VBool true);
                   qOr [ qIn ["loop_instance"] value_set;
                         qEq ["loop_text"] vendor ] ]) ]
       [("primary_answer_value", Fixture.answer_value (a_value a));
        ("loopInstances", VArr (map mk_loop (a_loops a)))]
  = answer_excludes a.
Proof.
  unfold answer_excludes. destruct a as [v loops]. cbn [a_value a_loops].
  unfold qAnd at 1. cbn [forallb]. rewrite andb_true_r. f_equal.
  - unfold qGte, holds, ceiling, same_rank.
    cbn [leaves field String.eqb Ascii.eqb Bool.eqb existsb].
    destruct v as [n|]; cbn [Fixture.answer_value with_elems existsb rank
                             Nat.eqb compare_value andb orb at_ceiling].
    + now rewrite gte_z, !orb_false_r.
    + reflexivity.
  - unfold qElemMatch.
    cbn [leaves field String.eqb Ascii.eqb Bool.eqb existsb].
    rewrite orb_false_r.
    induction loops as [|l loops IH]; [reflexivity|].
    cbn [map existsb]. rewrite IH. f_equal. unfold mk_loop. apply q_loop_hit.
Qed.

Lemma q_excluded_row (cat : Z) (answers : list answer_spec) :
  q_excluded (mk_question_row cat answers)
  = (cat =? 105)%Z && existsb answer_excludes answers.
Proof.
  unfold q_excluded, qAnd at 1. cbn [forallb]. rewrite andb_true_r. f_equal.
  - unfold qEq, holds, no_leaf, p_category, mk_question_row.
    cbn [leaves field String.eqb Ascii.eqb Bool.eqb existsb with_elems is_null
         andb orb].
    unfold value_eqb. cbn [compare_value].
    now rewrite is_eq_z, !orb_false_r, Z.eqb_sym.
  - unfold qElemMatch, p_answers, mk_question_row.
    cbn [leaves field String.eqb Ascii.eqb Bool.eqb existsb]. rewrite orb_false_r.
    induction answers as [|a answers IH]; [reflexivity|].
    cbn [map existsb]. rewrite IH. f_equal. unfold mk_answer. apply q_answer_excludes.
Qed.

Lemma q_category_row (cat : Z) (answers : list answer_spec) :
  qIn p_category categories (mk_question_row cat answers)
  = ((cat =? 105)%Z || (cat =? 147)%Z).
Proof.
  unfold qIn, holds, no_leaf, p_category, categories, mk_question_row.
  cbn [leaves field String.eqb Ascii.eqb Bool.eqb existsb with_elems is_null
       andb orb].
  unfold value_eqb. cbn [compare_value].
  now rewrite !is_eq_z, !orb_false_r.
Qed.

Lemma q_some_below_row (cat : Z) (answers : list answer_spec) :
  qLt p_answer_value ceiling (mk_question_row cat answers)
  = existsb (fun a => below_ceiling (a_value a)) answers.
Proof.
  unfold qLt, holds, p_answer_value, ceiling, mk_question_row, same_rank.
  cbn [leaves field String.eqb Ascii.eqb Bool.eqb].
  induction answers as [|[v loops] answers IH]; [reflexivity|].
  cbn [map flat_map mk_answer a_value a_loops leaves field String.eqb Ascii.eqb
       Bool.eqb app existsb].
  rewrite IH. f_equal.
  destruct v as [n|]; cbn [Fixture.answer_value with_elems existsb rank Nat.eqb
                           compare_value andb orb below_ceiling].
  - unfold Z.ltb. now rewrite !orb_false_r.
  - reflexivity.
Qed.

(** ** What an expansion leaves alone *)

Lemma get_nested_field (b : string) (q : path) (d1 d2 : doc) :
  field b d1 = field b d2 -> get_nested (b :: q) d1 = get_nested (b :: q) d2.
Proof. intros H. cbn [get_nested]. now rewrite H. Qed.

Lemma get_nested_step (a b : string) (q : path) (d : doc) :
  get_nested (a :: b :: q) d
  = match field a d with
    | Some (VDoc fs) => get_nested (b :: q) fs
    | _ => None
    end.
Proof. reflexivity. Qed.

Lemma set_nested_frame (p : path) :
  forall q e d, diverge p q = true ->
                get_nested q (set_nested p e d) = get_nested q d.
Proof.
  induction p as [|a p IH]; intros [|b q] e d H; cbn [diverge] in H;
    try discriminate H.
  cbn [set_nested]. destruct p as [|a2 p].
  - destruct (String.eqb_spec a b) as [->|Hne]; [destruct q; discriminate H|].
    apply get_nested_field. apply field_set_field_other. congruence.
  - destruct (field a d) as [[| | | | | | |fs]|] eqn:Ea; try reflexivity.
    destruct (String.eqb_spec a b) as [<-|Hne].
    + destruct q as [|b2 q]; [discriminate H|].
      rewrite !get_nested_step, field_set_field_same, Ea.
      now apply IH.
    + apply get_nested_field. apply field_set_field_other. congruence.
Qed.

Lemma unwind_row_frame (p q : path) (d r : doc) :
  diverge p q = true -> In r (unwind_row p d) -> get_nested q r = get_nested q d.
Proof.
  intros Hdiv. unfold unwind_row.
  destruct (get_nested p d) as [[| | | | | |es|]|]; simpl;
    try (intros [<-|[]]; reflexivity); try (intros []).
  intros Hin. apply in_map_iff in Hin as (e & <- & _).
  now apply set_nested_frame.
Qed.

(** ** One document at a time *)

Lemma mapM_app {A B : Type} (f : A -> res B) (a b : list A) (ra rb : list B) :
  mapM f a = Ok ra -> mapM f b = Ok rb -> mapM f (a ++ b) = Ok (ra ++ rb).
Proof.
  revert ra. induction a as [|x a IH]; intros ra Ha Hb; simpl in *.
  - now injection Ha as <-.
  - destruct (f x) as [y|]; simpl in *; [|discriminate Ha].
    destruct (mapM f a) as [ys|]; simpl in *; [|discriminate Ha].
    injection Ha as <-. now rewrite (IH ys eq_refl Hb).
Qed.

Lemma rows_at_loop_match_app (a b : list doc) :
  rows_at_loop_match (a ++ b) = rows_at_loop_match a ++ rows_at_loop_match b.
Proof.
  unfold rows_at_loop_match, match_rows, unwind_rows.
  now rewrite filter_app, map_app, !flat_map_app, filter_app, !flat_map_app.
Qed.

Lemma filter_none {A : Type} (f : A -> bool) (l : list A) :
  forallb (fun x => negb (f x)) l = true -> filter f l = [].
Proof.
  induction l as [|x l IH]; [reflexivity|].
  cbn [forallb filter]. intros H. apply andb_true_iff in H as [Hx Hl].
  destruct (f x); [discriminate Hx | now apply IH].
Qed.

Lemma run_first_ten (cc opps : list doc) :
  run (firstn 10 (pipeline cc)) opps
  = bind (mapM (project_row keep_list computed)
               (match_rows q_loop (rows_at_loop_match opps)))
         (lookup_criteria cc).
Proof.
  change (firstn 10 (pipeline cc))
    with (firstn 8 (pipeline cc)
          ++ [project_stage keep_list computed; lookup_criteria cc]).
  rewrite run_app, run_first_eight. cbn [bind run]. unfold project_stage.
  destruct (mapM (project_row keep_list computed)
                 (match_rows q_loop (rows_at_loop_match opps))); cbn [bind];
    [|reflexivity].
  now destruct (lookup_criteria cc a).
Qed.

(** ** The computed fields of the second [$project] *)

Lemma e_competitorWinner_total (d : doc) :
  exists b, e_competitorWinner d = Ok (Some (VBool b)).
Proof.
  unfold e_competitorWinner, eEq, eCmp, eAnd, eOr, eField, eLit.
  cbn [and_list or_list bind truthy].
  repeat match goal with
         | |- context [if ?b then _ else _] => destruct b; cbn [bind]
         end; eexists; reflexivity.
Qed.

Lemma field_set_opt_other (k k' : string) (x : option value) (fs : doc) :
  k <> k' ->
  field k (match x with Some v => set_field k' v fs | None => fs end) = field k fs.
Proof. intros H. destruct x; [now apply field_set_field_other | reflexivity]. Qed.

Lemma field_set_opt_same (k : string) (x : option value) (fs : doc) :
  field k fs = None ->
  field k (match x with Some v => set_field k v fs | None => fs end) = x.
Proof. intros H. destruct x; [apply field_set_field_same | exact H]. Qed.

Lemma field_set_field_some (k k' : string) (v : value) (fs : doc) :
  field k (set_field k' v fs) <> None -> k = k' \/ field k fs <> None.
Proof.
  destruct (String.eqb_spec k k') as [->|Hne]; [now left|].
  rewrite field_set_field_other by exact Hne. now right.
Qed.

Lemma tails_keep_list (k : string) :
  k <> "_id" -> k <> "contacts" -> tails k (["_id"] :: keep_list) = [].
Proof.
  intros H1 H2. unfold tails, keep_list, p_answers, p_category.
  cbn [flat_map app].
  now rewrite (proj2 (String.eqb_neq _ _) H1), (proj2 (String.eqb_neq _ _) H2).
Qed.

Lemma project_incl_keep_keys (k : string) (d : doc) :
  field k (project_incl keep_list d) <> None -> k = "_id" \/ k = "contacts".
Proof.
  intros H.
  destruct (String.eqb_spec k "_id") as [->|H1]; [now left|].
  destruct (String.eqb_spec k "contacts") as [->|H2]; [now right|].
  elim H. apply include_fields_no_key. now apply tails_keep_list.
Qed.

(** ** The category of a returned row *)

Lemma include_doc (ps : list path) (fs : doc) :
  include ps (VDoc fs) = Some (VDoc (include_fields ps fs)).
Proof.
  cbn [include]. do 2 f_equal.
  induction fs as [|[k x] fs IH]; [reflexivity|].
  cbn [include_fields]. rewrite <- IH. reflexivity.
Qed.

Lemma include_fields_sub (ps : list path) (k : string) (fs fs' : doc) :
  field k fs = Some (VDoc fs') ->
  tails k ps <> [] -> has_leaf (tails k ps) = false ->
  field k (include_fields ps fs) = Some (VDoc (include_fields (tails k ps) fs')).
Proof.
  intros Hk Hne Hleaf. induction fs as [|[k0 x] fs IH]; [discriminate Hk|].
  cbn [field] in Hk. cbn [include_fields].
  destruct (String.eqb_spec k k0) as [<-|Hk0].
  - injection Hk as ->.
    destruct (tails k ps) as [|t ts] eqn:Et; [now elim Hne|].
    rewrite Hleaf, include_doc. cbn [field]. now rewrite String.eqb_refl.
  - assert (E : String.eqb k k0 = false) by now apply String.eqb_neq.
    destruct (tails k0 ps) as [|t ts]; [now apply IH|].
    destruct (has_leaf (t :: ts)).
    + cbn [field]. rewrite E. now apply IH.
    + destruct (include (t :: ts) x); cbn [field]; [rewrite E|]; now apply IH.
Qed.

Lemma get_nested_get_in (p : path) :
  forall d v, get_nested p d = Some v -> get_in p d = Some v.
Proof.
  induction p as [|k p IH]; intros d v H; [discriminate H|].
  destruct p as [|k2 p]; [exact H|].
  rewrite get_nested_step in H. rewrite get_in_step.
  destruct (field k d) as [[| | | | | | |fs]|]; try discriminate H.
  now apply IH.
Qed.

Lemma get_nested_three (a b c : string) (d : doc) (v : value) :
  get_nested [a; b; c] d = Some v ->
  exists fs1 fs2,
    field a d = Some (VDoc fs1) /\ field b fs1 = Some (VDoc fs2) /\
    field c fs2 = Some v.
Proof.
  rewrite get_nested_step.
  destruct (field a d) as [[| | | | | | |fs1]|] eqn:E1; try discriminate.
  rewrite get_nested_step.
  destruct (field b fs1) as [[| | | | | | |fs2]|] eqn:E2; try discriminate.
  cbn [get_nested]. intros H. now exists fs1, fs2.
Qed.

Lemma three_get_nested (a b c : string) (d fs1 fs2 : doc) (v : value) :
  field a d = Some (VDoc fs1) -> field b fs1 = Some (VDoc fs2) ->
  field c fs2 = Some v -> get_nested [a; b; c] d = Some v.
Proof.
  intros H1 H2 H3. rewrite get_nested_step, H1, get_nested_step, H2. exact H3.
Qed.

Lemma question_category_kept (d r : doc) :
  q_question d = true -> In r (unwind_row p_answers d) ->
  exists v, get_nested p_category r = Some v /\ in_categories v = true.
Proof.
  intros Hq Hr.
  assert (Hans : exists a, get_nested p_answers d = Some a).
  { unfold unwind_row in Hr. destruct (get_nested p_answers d) as [a|];
      [now exists a | destruct Hr]. }
  destruct Hans as (a & Ha).
  destruct (get_nested_three _ _ _ d a Ha) as (fs1 & fs2 & H1 & H2 & H3).
  unfold q_question, qAnd in Hq. cbn [forallb] in Hq.
  apply andb_true_iff in Hq as [Hcat _].
  unfold qIn, holds, no_leaf, p_category in Hcat. cbn [leaves] in Hcat.
  rewrite H1, H2 in Hcat.
  destruct (field "category_id" fs2) as [v|] eqn:Ev; [|discriminate Hcat].
  exists v. split.
  - rewrite (unwind_row_frame p_answers p_category d r eq_refl Hr).
    now apply (three_get_nested _ _ _ d fs1 fs2).
  - cbn [existsb categories is_null andb orb] in Hcat.
    rewrite !orb_false_r in Hcat. exact Hcat.
Qed.

Lemma rows_at_loop_match_category (opps : list doc) (d : doc) :
  In d (rows_at_loop_match opps) ->
  exists v, get_nested p_category d = Some v /\ in_categories v = true.
Proof.
  unfold rows_at_loop_match, unwind_rows at 1 2. intros H.
  apply in_flat_map in H as (d6 & H6 & Hd).
  apply in_flat_map in H6 as (d5 & H5 & Hd6).
  apply filter_In in H5 as [_ Hq].
  destruct (question_category_kept d5 d6 Hq Hd6) as (v & Hv & Hin).
  exists v. split; [|exact Hin].
  now rewrite (unwind_row_frame p_loops p_category d6 d eq_refl Hd).
Qed.

Lemma project_incl_category (d : doc) (v : value) :
  get_nested p_category d = Some v ->
  get_nested p_category (project_incl keep_list d) = Some v.
Proof.
  intros H.
  destruct (get_nested_three _ _ _ d v H) as (fs1 & fs2 & H1 & H2 & H3).
  unfold project_incl.
  eapply three_get_nested.
  - apply (include_fields_sub _ "contacts" d fs1 H1); [discriminate | reflexivity].
  - apply (include_fields_sub _ "questions" fs1 fs2 H2); [discriminate | reflexivity].
  - rewrite include_fields_leaf by reflexivity. exact H3.
Qed.

Lemma project_row_contacts (d r : doc) :
  project_row keep_list computed d = Ok r ->
  field "contacts" r = field "contacts" (project_incl keep_list d).
Proof.
  destruct (e_competitorWinner_total d) as (b & Hb).
  unfold project_row, computed. cbn [add_computed].
  unfold eIfNull, eField. cbn [bind].
  destruct (nullish (get_in ["contacts"; "questions"; "criteria_value"] d));
    cbn [bind]; rewrite Hb; cbn [bind]; intros H; injection H as <-;
    rewrite field_set_field_other by discriminate;
    rewrite field_set_opt_other by discriminate;
    now rewrite field_set_opt_other by discriminate.
Qed.

Lemma rows_at_group_origin (w : world) (rows : list doc) (d : doc) :
  rows_at_group w = Ok rows -> In d rows ->
  exists d8 r9 c,
    In d8 (rows_at_loop_match (opportunities w)) /\
    project_row keep_list computed d8 = Ok r9 /\
    d = set_field "criteria" c r9.
Proof.
  unfold rows_at_group. rewrite run_first_ten.
  destruct (mapM (project_row keep_list computed)
              (match_rows q_loop (rows_at_loop_match (opportunities w))))
    as [rows9|] eqn:E9; cbn [bind]; [|discriminate].
  rewrite lookup_criteria_rows. intros H Hin. injection H as <-.
  apply in_map_iff in Hin as (r9 & <- & Hr9).
  destruct (mapM_In _ _ _ _ E9 Hr9) as (d8 & Hd8 & Hp).
  apply filter_In in Hd8 as [Hd8 _].
  exists d8, r9. eexists. now repeat split.
Qed.

Lemma rows_at_group_category (w : world) (rows : list doc) (d : doc) :
  rows_at_group w = Ok rows -> In d rows ->
  exists v, get_in p_category d = Some v /\ in_categories v = true.
Proof.
  intros Hrows Hd.
  destruct (rows_at_group_origin w rows d Hrows Hd) as (d8 & r9 & c & Hd8 & Hp & ->).
  destruct (rows_at_loop_match_category _ d8 Hd8) as (v & Hv & Hin).
  exists v. split; [|exact Hin].
  apply get_nested_get_in.
  change p_category with ("contacts" :: ["questions"; "category_id"]).
  rewrite (get_nested_field "contacts" _ _ r9)
    by (apply field_set_field_other; discriminate).
  rewrite (get_nested_field "contacts" _ _ (project_incl keep_list d8))
    by now apply project_row_contacts.
  now apply project_incl_category.
Qed.

(** ** Stages 5 to 8 on question rows with one answer *)

Lemma q_question_kept (cat : Z) (answers : list answer_spec) :
  q_question (mk_question_row cat answers) = question_kept cat answers.
Proof.
  unfold q_question, qAnd, qNor, qOr, question_kept. cbn [forallb existsb].
  rewrite q_category_row, q_excluded_row, q_some_below_row.
  now rewrite orb_false_r, andb_true_r, andb_assoc.
Qed.

Lemma below_not_at_ceiling (v : option Z) :
  below_ceiling v = true -> at_ceiling v = false.
Proof.
  destruct v as [n|]; cbn [below_ceiling at_ceiling]; [|discriminate].
  intros H. apply Z.ltb_lt in H. apply Z.leb_gt. exact H.
Qed.

Lemma q_question_single (cat : Z) (a : answer_spec) :
  cat = 105%Z \/ cat = 147%Z ->
  q_question (mk_question_row cat [a]) = below_ceiling (a_value a).
Proof.
  intros Hcat. rewrite q_question_kept. unfold question_kept, answer_excludes.
  cbn [existsb]. rewrite !orb_false_r.
  assert (Hc : ((cat =? 105)%Z || (cat =? 147)%Z) = true)
    by (destruct Hcat as [-> | ->]; reflexivity).
  rewrite Hc. cbn [andb].
  destruct (below_ceiling (a_value a)) eqn:Hb; [|now rewrite andb_false_r].
  rewrite (below_not_at_ceiling _ Hb). cbn [andb]. now rewrite andb_false_r.
Qed.

Lemma unwind_answers_single (cat : Z) (a : answer_spec) :
  unwind_rows p_loops (unwind_rows p_answers [mk_question_row cat [a]])
  = map (flat_loop_row cat a) (a_loops a).
Proof.
  unfold unwind_rows. cbn [flat_map]. rewrite app_nil_r.
  unfold unwind_row at 2, p_answers, mk_question_row.
  cbn [get_nested field String.eqb Ascii.eqb Bool.eqb map set_nested set_field
       mk_answer flat_map].
  rewrite app_nil_r.
  unfold unwind_row, p_loops.
  cbn [get_nested field String.eqb Ascii.eqb Bool.eqb].
  unfold mk_answer. cbn [field String.eqb Ascii.eqb Bool.eqb].
  rewrite map_map. apply map_ext. intros l. reflexivity.
Qed.

Lemma q_loop_flat_row (cat : Z) (a : answer_spec) (l : loop_spec) :
  q_loop (flat_loop_row cat a l) = loop_passes l.
Proof.
  unfold q_loop, qOr. cbn [existsb].
  rewrite (q_client_lost_needs_field (flat_loop_row cat a l) eq_refl).
  rewrite !orb_false_r. unfold loop_passes. f_equal.
  - unfold qIn, holds, no_leaf, p_loop_instance, value_set, flat_loop_row, mk_loop.
    cbn [leaves field String.eqb Ascii.eqb Bool.eqb existsb with_elems is_null
         andb orb].
    unfold value_eqb. cbn [compare_value]. now rewrite is_eq_z, !orb_false_r.
  - unfold qEq, holds, no_leaf, p_loop_text, vendor, flat_loop_row, mk_loop.
    cbn [leaves field String.eqb Ascii.eqb Bool.eqb existsb with_elems is_null
         andb orb].
    unfold value_eqb. cbn [compare_value].
    now rewrite is_eq_string, !orb_false_r, String.eqb_sym.
Qed.

Lemma filter_q_loop_flat (cat : Z) (a : answer_spec) (ls : list loop_spec) :
  filter q_loop (map (flat_loop_row cat a) ls)
  = map (flat_loop_row cat a) (filter loop_passes ls).
Proof.
  induction ls as [|l ls IH]; [reflexivity|].
  cbn [map filter]. rewrite q_loop_flat_row, IH. now destruct (loop_passes l).
Qed.

Lemma bounded_selection_single (cat : Z) (a : answer_spec) :
  cat = 105%Z \/ cat = 147%Z ->
  bounded_selection [mk_question_row cat [a]] = selected_rows cat a.
Proof.
  intros Hcat. unfold bounded_selection, match_rows at 2, selected_rows.
  cbn [filter]. rewrite (q_question_single cat a Hcat).
  destruct (below_ceiling (a_value a)); [|reflexivity].
  rewrite unwind_answers_single. apply filter_q_loop_flat.
Qed.

Lemma bounded_selection_answers (cat : Z) (answers : list answer_spec) :
  cat = 105%Z \/ cat = 147%Z ->
  bounded_selection (map (fun a => mk_question_row cat [a]) answers)
  = flat_map (selected_rows cat) answers.
Proof.
  intros Hcat. induction answers as [|a answers IH]; [reflexivity|].
  change (map (fun a => mk_question_row cat [a]) (a :: answers))
    with ([mk_question_row cat [a]]
          ++ map (fun a => mk_question_row cat [a]) answers).
  rewrite bounded_selection_app, IH, (bounded_selection_single cat a Hcat).
  reflexivity.
Qed.

(** ** The sub-pipeline of [$lookup] on criteria with versions *)























(** ** The order of the returned rows *)










(** ** Rejection by [$arrayElemAt] *)

Lemma group_answers_evaluates (rows groups : list doc) (d : doc) :
  group_answers rows = Ok groups -> In d rows ->
  exists o, e_answer d = Ok (Some (VDoc o)).
Proof.
  intros Hg Hd.
  destruct (group_answers_ids rows groups Hg) as [_ Hids].
  specialize (Hids d Hd). apply in_map_iff in Hids as (g & Hid & Hgin).
  destruct (group_answers_content rows groups g Hg Hgin) as (k & objs & _ & Hobjs & ->).
  cbn [group_of field String.eqb Ascii.eqb Bool.eqb] in Hid. injection Hid as ->.
  assert (Hin : In d (group_rows (key_of d) rows)).
  { unfold group_rows. apply filter_In. split; [exact Hd | apply value_eqb_refl]. }
  destruct (Forall2_In_l _ _ _ d Hobjs Hin) as (o & _ & Ho). now exists o.
Qed.

Lemma e_definition_rejects (d c : doc) (cs : list doc) (v : doc) (x : value) :
  field "criteria" d = Some (VArr (map VDoc (c :: cs))) ->
  field "versions" c = Some (VDoc v) ->
  field "definition" v = Some x ->
  is_array x = false -> is_null x = false ->
  exists msg, e_definition d = Err msg.
Proof.
  intros Hc Hv Hx Harr Hnull. unfold e_definition, eIfNull, eArrayElemAt, eField.
  rewrite (get_in_criteria ["definition"] d (c :: cs) "versions" Hc).
  cbn [bind map present flat_map]. rewrite get_in_step, Hv.
  change (get_in ["definition"] v) with (field "definition" v). rewrite Hx.
  cbn [app elem_at Z.leb Z.compare Z.to_nat nth_error bind].
  destruct x; try discriminate Harr; try discriminate Hnull;
    cbn [bind]; eexists; reflexivity.
Qed.

(** * The claims *)

(** C1.  At the input [Fixture.w_two_answers] the first returned group has
    [answer_value] 9500: the ceiling of stage 5 is tested on the array of
    answers before it is expanded, so a question with one answer below the
    ceiling brings its other answers with it. *)
Theorem C1_group_above_ceiling :
  exists g rest n,
    fst (task_3_1 Fixture.w_two_answers) = Ok (g :: rest) /\
    field "answer_value" g = Some (VNum n) /\
    (9000 <= n)%Z.
Proof.
  eexists. eexists. exists 9500%Z. split; [vm_compute; reflexivity|].
  split; [reflexivity | lia].
Qed.

(** C2, as the code has it.  On question rows of category 105 or 147 with
    one answer each, whatever the loop instances of the answer, stages 5 to 8
    return, for each row in the order of the input, nothing when the value
    of the answer is null or at or above the ceiling 9000, and otherwise one
    row for each loop instance of the answer whose [loop_instance] is 50 or
    whose [loop_text] is ADP, in the order of the array: none for an answer
    without such an instance, several for an answer with several.  No
    maximum is taken.  They return no row at all when every value is at or
    above the ceiling or null. *)
Theorem C2_ceiling_filter (cat : Z) (answers : list answer_spec) :
  cat = 105%Z \/ cat = 147%Z ->
  (forall cc rows,
     run (firstn 4 (skipn 4 (pipeline cc))) rows = Ok (bounded_selection rows)) /\
  bounded_selection (map (fun a => mk_question_row cat [a]) answers)
  = flat_map
      (fun a =>
         if below_ceiling (a_value a)
         then map (flat_loop_row cat a) (filter loop_passes (a_loops a))
         else [])
      answers /\
  ((forall a, In a answers ->
      a_value a = None \/ exists n, a_value a = Some n /\ (9000 <= n)%Z) ->
   bounded_selection (map (fun a => mk_question_row cat [a]) answers) = []).
Proof.
  intros Hcat. split; [apply run_stages_5_to_8|].
  split; [exact (bounded_selection_answers cat answers Hcat)|].
  intros Hall. rewrite (bounded_selection_answers cat answers Hcat).
  induction answers as [|a answers IH]; [reflexivity|].
  cbn [flat_map]. rewrite IH by (intros u Hu; apply Hall; now right).
  rewrite app_nil_r. unfold selected_rows.
  destruct (Hall a (or_introl eq_refl)) as [-> | (n & -> & Hn)];
    cbn [below_ceiling]; [reflexivity|].
  destruct (Z.ltb_spec n 9000); [lia | reflexivity].
Qed.

Lemma C2_ceiling_filter_witness :
  bounded_selection
    (map (fun a => mk_question_row 105 [a])
       [Answer (Some 10%Z) [Loop 7 true "Other"];
        Answer (Some 20%Z) [Loop 50 false "Other"; Loop 7 true "ADP"];
        Answer (Some 9000%Z) [Loop 50 true "ADP"];
        Answer None [Loop 50 true "ADP"];
        Answer (Some 30%Z) [Loop 50 true "ADP"]])
  = [flat_loop_row 105 (Answer (Some 20%Z) [Loop 50 false "Other"; Loop 7 true "ADP"])
       (Loop 50 false "Other");
     flat_loop_row 105 (Answer (Some 20%Z) [Loop 50 false "Other"; Loop 7 true "ADP"])
       (Loop 7 true "ADP");
     flat_loop_row 105 (Answer (Some 30%Z) [Loop 50 true "ADP"])
       (Loop 50 true "ADP")] /\
  bounded_selection
    (map (fun a => mk_question_row 105 [a])
       [Answer (Some 9000%Z) [Loop 50 true "ADP"]; Answer None [Loop 50 true "ADP"]])
  = [].
Proof.
  split.
  - exact (proj1 (proj2 (C2_ceiling_filter 105
       [Answer (Some 10%Z) [Loop 7 true "Other"];
        Answer (Some 20%Z) [Loop 50 false "Other"; Loop 7 true "ADP"];
        Answer (Some 9000%Z) [Loop 50 true "ADP"];
        Answer None [Loop 50 true "ADP"];
        Answer (Some 30%Z) [Loop 50 true "ADP"]]
       (or_introl eq_refl)))).
  - apply (proj2 (proj2 (C2_ceiling_filter 105
       [Answer (Some 9000%Z) [Loop 50 true "ADP"]; Answer None [Loop 50 true "ADP"]]
       (or_introl eq_refl)))).
    intros v [<- | [<- | []]].
    + right. exists 9000%Z. split; [reflexivity | lia].
    + now left.
Defined.

(** C2, as the specification words it, fails: of two rows with the values
    10 and 20 the greatest value below the ceiling is 20, and stages 5 to 8
    return both rows. *)
Lemma C2_maximal_filter_counterexample :
  spec_maximal_below 9000 [Some 10%Z; Some 20%Z] = [Some 20%Z] /\
  bounded_selection (map (Fixture.question_row 147) [Some 10%Z; Some 20%Z])
  = [Fixture.loop_row 147 (Some 10%Z); Fixture.loop_row 147 (Some 20%Z)] /\
  bounded_selection (map (Fixture.question_row 147) [Some 10%Z; Some 20%Z])
  <> map (Fixture.loop_row 147) (spec_maximal_below 9000 [Some 10%Z; Some 20%Z]).
Proof.
  split; [reflexivity|]. split; [reflexivity|].
  vm_compute. discriminate.
Qed.

(** C3.  At the input [Fixture.w_client_winner] the pipeline returns no row
    and the pipeline without its allow-list returns one: the allow-list
    leaves out the top-level [clientWinner] that stage 8 reads. *)
Theorem C3_pruning_changes_result :
  run (pipeline (clientCriteria Fixture.w_client_winner))
      (opportunities Fixture.w_client_winner) = Ok [] /\
  exists r,
    run (pipeline_unpruned (clientCriteria Fixture.w_client_winner))
        (opportunities Fixture.w_client_winner) = Ok [r] /\
    field "answer_value" r = Some (VNum 100).
Proof.
  split; [vm_compute; reflexivity|].
  eexists. split; [vm_compute; reflexivity | reflexivity].
Qed.

(** C4, as the code has it.  [$lookup] keeps every row.  In every returned
    row the object under [answers] was built from a row that reached
    [$group]; its [text] and its [definition] are what [e_text] and
    [e_definition] resolve from the matches of that row, and are absent when
    nothing is resolved.  With no match both are absent. *)
Theorem C4_secondary_fields_resolved_or_absent (w : world) :
  (forall rows, exists out,
     lookup_criteria (clientCriteria w) rows = Ok out /\
     List.length out = List.length rows) /\
  (forall out r, fst (task_3_1 w) = Ok out -> In r out ->
     exists rows d o t df,
       rows_at_group w = Ok rows /\ In d rows /\
       field "criteria" d
       = Some (VArr (map VDoc
                 (criteria_for (field "criteria_value" d) (clientCriteria w)))) /\
       field "answers" r = Some (VDoc o) /\
       e_text d = Ok t /\ e_definition d = Ok df /\
       field "text" o = t /\ field "definition" o = df) /\
  (forall d, field "criteria" d = Some (VArr []) ->
     e_text d = Ok None /\ e_definition d = Ok None /\
     exists o, e_answer d = Ok (Some (VDoc o)) /\
               field "text" o = None /\ field "definition" o = None).
Proof.
  split; [|split].
  - intros rows. eexists. split; [apply lookup_criteria_rows | apply length_map].
  - intros out r Hout Hin.
    rewrite task_3_1_result, pipeline_split_group, run_app in Hout.
    fold (rows_at_group w) in Hout.
    destruct (rows_at_group w) as [rows|] eqn:Erows; cbn [bind] in Hout;
      [|discriminate Hout].
    destruct (returned_row_answers rows out r Hout Hin) as (d & e & Hd & He & Hr).
    destruct (e_answer_fields d e He) as (o & t & df & -> & Ht & Hdf & Hft & Hfd).
    exists rows, d, o, t, df. repeat split; try assumption.
    now apply (rows_at_group_criteria w rows d).
  - intros d H. split; [now apply e_text_no_match|].
    split; [now apply e_definition_no_match | now apply e_answer_no_match].
Qed.

Lemma C4_secondary_fields_witness :
  exists r o,
    fst (task_3_1 Fixture.w_no_criterion) = Ok [r] /\
    criteria_for (Some (VNum 5)) (clientCriteria Fixture.w_no_criterion) = [] /\
    field "answers" r = Some (VDoc o) /\
    field "text" o = None /\ field "definition" o = None.
Proof.
  destruct (fst (task_3_1 Fixture.w_no_criterion)) as [out|] eqn:E;
    [|exfalso; vm_compute in E; discriminate E].
  pose proof E as E'. vm_compute in E'. injection E' as <-.
  destruct (proj1 (proj2 (C4_secondary_fields_resolved_or_absent
                            Fixture.w_no_criterion)) _ _ E (or_introl eq_refl))
    as (rows & d & o & t & df & Hrows & Hd & _ & Hans & Ht & Hdf & Hft & Hfd).
  vm_compute in Hrows. injection Hrows as <-. destruct Hd as [<- | []].
  vm_compute in Ht. injection Ht as <-.
  vm_compute in Hdf. injection Hdf as <-.
  eexists. exists o. split; [reflexivity|].
  split; [reflexivity|]. split; [exact Hans|]. now split.
Defined.

(** C4, as the specification words it, fails: at [Fixture.w_no_criterion]
    the key 5 has no document in [clientCriteria], the row is returned, and
    its [answers] object has neither a [text] nor a [definition] field. *)
Lemma C4_absent_not_null_counterexample :
  exists r o,
    fst (task_3_1 Fixture.w_no_criterion) = Ok [r] /\
    field "answers" r = Some (VDoc o) /\
    field "value" o = Some (VNum 5) /\
    field "text" o = None /\ field "definition" o = None /\
    field "text" o <> Some VNull /\ field "definition" o <> Some VNull.
Proof.
  eexists. eexists. split; [vm_compute; reflexivity|].
  split; [reflexivity|]. repeat split; try reflexivity; discriminate.
Qed.








(** C9.  No row that reaches the [$match] of stage 8 has a top-level
    [clientWinner], so the branch that asks for [clientWinner: false] holds
    for none of them; the stage keeps the rows that its first two branches
    keep, and the pipeline returns what it returns with the two-branch
    stage. *)
Theorem C9_clientWinner_branch_dead (cc opps : list doc) :
  exists rows7,
    run (firstn 7 (pipeline cc)) opps = Ok rows7 /\
    Forall (fun d => field "clientWinner" d = None) rows7 /\
    Forall (fun d => q_client_lost d = false) rows7 /\
    match_stage q_loop rows7 = match_stage q_loop_two rows7 /\
    run (pipeline cc) opps = run (pipeline_two_branches cc) opps.
Proof.
  exists (rows_at_loop_match opps).
  pose proof (rows_at_loop_match_no_clientWinner opps) as Hno.
  assert (Hsame : match_rows q_loop (rows_at_loop_match opps)
                  = match_rows q_loop_two (rows_at_loop_match opps)).
  { apply filter_ext_in. intros d Hd. apply q_loop_two_branches.
    now apply (proj1 (Forall_forall _ _) Hno). }
  repeat split.
  - apply run_first_seven.
  - exact Hno.
  - eapply Forall_impl; [|exact Hno]. apply q_client_lost_needs_field.
  - unfold match_stage. now rewrite Hsame.
  - unfold pipeline_two_branches.
    change (pipeline cc)
      with (firstn 7 (pipeline cc) ++ [match_stage q_loop] ++ skipn 8 (pipeline cc))
      at 1.
    rewrite !run_app, run_first_seven. cbn [bind].
    rewrite !run_app. cbn [run match_stage bind]. now rewrite Hsame.
Qed.

(** C10.  The second [$project] never fails, and in every row it produces
    [competitorWinner] is false: its [$and] starts with [$clientWinner]
    compared with false, and the rows it reads have no top-level
    [clientWinner]. *)
Theorem C10_competitorWinner_false (cc opps : list doc) :
  exists rows9,
    run (firstn 9 (pipeline cc)) opps = Ok rows9 /\
    Forall (fun r => field "competitorWinner" r = Some (VBool false)) rows9 /\
    forall d, field "clientWinner" d = None ->
              e_competitorWinner d = Ok (Some (VBool false)).
Proof.
  change (firstn 9 (pipeline cc))
    with (firstn 8 (pipeline cc) ++ [project_stage keep_list computed]).
  rewrite run_app, run_first_eight. cbn [bind run].
  destruct (mapM_Forall (project_row keep_list computed)
              (fun r => field "competitorWinner" r = Some (VBool false))
              (match_rows q_loop (rows_at_loop_match opps))) as (rows9 & Hrun & Hall).
  { apply match_rows_Forall.
    eapply Forall_impl; [|apply rows_at_loop_match_no_clientWinner].
    intros d Hd. now apply add_computed_competitorWinner. }
  exists rows9. unfold project_stage. rewrite Hrun. cbn [bind].
  repeat split; [exact Hall | apply e_competitorWinner_false].
Qed.

Lemma C10_competitorWinner_false_witness :
  exists rows9,
    run (firstn 9 (pipeline (clientCriteria Fixture.w_two_answers)))
        (opportunities Fixture.w_two_answers) = Ok rows9 /\
    List.length rows9 = 2%nat /\
    Forall (fun r => field "competitorWinner" r = Some (VBool false)) rows9 /\
    e_competitorWinner [] = Ok (Some (VBool false)).
Proof.
  destruct (C10_competitorWinner_false (clientCriteria Fixture.w_two_answers)
              (opportunities Fixture.w_two_answers)) as (rows9 & Hrun & Hall & Hexpr).
  exists rows9. split; [exact Hrun|].
  split; [vm_compute in Hrun; injection Hrun as <-; reflexivity|].
  split; [exact Hall | now apply Hexpr].
Defined.

(** * Beyond the claims *)

(** X1.  [$group] puts the rows of the stream with the same answer value
    into one group document each: its [_id] and [answer_value] are that
    value, [answer_text] is the text of the first such row of the stream,
    [answers] holds one object per such row in the order of the stream, and
    [count] is their number.  No two groups have the same [_id], and every
    row is in the group of its value. *)
Theorem X1_group_content (rows groups : list doc) :
  group_answers rows = Ok groups ->
  Forall (fun g =>
    exists k objs,
      group_rows k rows <> [] /\
      Forall2 (fun d o => e_answer d = Ok (Some (VDoc o))) (group_rows k rows) objs /\
      g = group_of k (first_text (group_rows k rows)) objs
            (Z.of_nat (List.length (group_rows k rows)))) groups /\
  NoDup (map (field "_id") groups) /\
  (forall d, In d rows -> In (Some (key_of d)) (map (field "_id") groups)).
Proof.
  intros Hg. split; [|now apply group_answers_ids].
  apply Forall_forall. intros g Hin. now apply (group_answers_content rows groups).
Qed.

Lemma X1_group_content_witness :
  exists rows groups,
    rows_at_group Fixture.w_tie = Ok rows /\
    group_answers rows = Ok groups /\
    map (field "count") groups = [Some (VNum 2)] /\
    NoDup (map (field "_id") groups).
Proof.
  destruct (rows_at_group Fixture.w_tie) as [rows|] eqn:Er;
    [|exfalso; vm_compute in Er; discriminate Er].
  pose proof Er as Er'. vm_compute in Er'. injection Er' as <-.
  match type of Er with
  | _ = Ok ?R => destruct (group_answers R) as [groups|] eqn:Eg;
                 [|exfalso; vm_compute in Eg; discriminate Eg]
  end.
  destruct (X1_group_content _ groups Eg) as (_ & Hnd & _).
  eexists. exists groups. split; [reflexivity|]. split; [exact Eg|].
  split; [|exact Hnd].
  vm_compute in Eg. injection Eg as <-. reflexivity.
Defined.

(** X2.  Every row that [task_3_1] returns has exactly the fields [_id],
    [answer_value], [answer_text], [answers] and [count], in this order.
    [answer_value] is the [_id], [answers] is the object built from one row
    that reached [$group] in that group, the object's own [answer_value] is
    absent when the row has no answer value and is the [_id] otherwise, and
    [count] is at least one. *)
Theorem X2_returned_row_shape (w : world) (out : list doc) (r : doc) :
  fst (task_3_1 w) = Ok out -> In r out ->
  exists rows d o n,
    rows_at_group w = Ok rows /\ In d rows /\
    e_answer d = Ok (Some (VDoc o)) /\
    r = returned_row (key_of d) (first_text (group_rows (key_of d) rows)) o n /\
    n = Z.of_nat (List.length (group_rows (key_of d) rows)) /\
    (1 <= n)%Z /\
    map fst r = ["_id"; "answer_value"; "answer_text"; "answers"; "count"] /\
    field "answer_value" r = field "_id" r /\
    (field "answer_value" o = None /\ key_of d = VNull \/
     field "answer_value" o = Some (key_of d)).
Proof.
  intros Hout Hin.
  destruct (task_3_1_tail w out Hout) as (rows & groups & Hrows & Hg & ->).
  apply (Permutation_in _ (Permutation_sym (sort_rows_perm sort_keys _))) in Hin.
  apply in_flat_map in Hin as (g & Hgin & Hr).
  destruct (group_answers_content rows groups g Hg Hgin) as (k & objs & Hne & Hobjs & ->).
  rewrite unwind_row_group in Hr. apply in_map_iff in Hr as (o & <- & Ho).
  destruct (Forall2_In_r _ _ _ o Hobjs Ho) as (d & Hd & Hed).
  destruct (group_rows_key k rows d Hd) as [Hdin Hk].
  exists rows, d, o, (Z.of_nat (List.length (group_rows k rows))).
  rewrite Hk. repeat split; try assumption; try reflexivity.
  - destruct (group_rows k rows); [now elim Hne | simpl List.length; lia].
  - rewrite (e_answer_answer_value d o Hed). unfold key_of in Hk.
    destruct (get_in p_answer_value d) as [v|]; simpl in Hk.
    + right. now rewrite Hk.
    + left. now split.
Qed.

Lemma X2_returned_row_shape_witness :
  exists r rest,
    fst (task_3_1 Fixture.w_tie) = Ok (r :: rest) /\
    map fst r = ["_id"; "answer_value"; "answer_text"; "answers"; "count"] /\
    field "answer_value" r = field "_id" r.
Proof.
  destruct (fst (task_3_1 Fixture.w_tie)) as [out|] eqn:E;
    [|exfalso; vm_compute in E; discriminate E].
  pose proof E as E'. vm_compute in E'. injection E' as <-.
  eexists. eexists. split; [reflexivity|].
  destruct (X2_returned_row_shape Fixture.w_tie _ _ E (or_introl eq_refl))
    as (rows & d & o & n & _ & _ & _ & _ & _ & _ & Hkeys & Hval & _).
  now split.
Defined.

(** X3.  In the rows that [task_3_1] returns, [count] is the number of
    returned rows with the same [_id]. *)
Theorem X3_count_is_rows_of_group (w : world) (out : list doc) (r : doc)
    (k : value) (n : Z) :
  fst (task_3_1 w) = Ok out -> In r out ->
  field "_id" r = Some k -> field "count" r = Some (VNum n) ->
  Z.of_nat (List.length (filter (has_id k) out)) = n.
Proof.
  intros Hout Hin Hid Hcount.
  destruct (task_3_1_tail w out Hout) as (rows & groups & Hrows & Hg & ->).
  rewrite <- (filter_length_perm (has_id k) _ _ (sort_rows_perm sort_keys _)).
  apply (Permutation_in _ (Permutation_sym (sort_rows_perm sort_keys _))) in Hin.
  apply in_flat_map in Hin as (g & Hgin & Hr).
  destruct (group_answers_content rows groups g Hg Hgin) as (k' & objs & Hne & Hobjs & ->).
  rewrite unwind_row_group in Hr. apply in_map_iff in Hr as (o & <- & Ho).
  cbn in Hid, Hcount. injection Hid as ->. injection Hcount as <-.
  rewrite (count_in_groups rows groups k).
  - replace (existsb (fun g => has_id k g) groups) with true; [reflexivity|].
    symmetry. apply existsb_exists. eexists. split; [exact Hgin|].
    unfold has_id. cbn. apply value_eqb_refl.
  - intros g Hgin'.
    destruct (group_answers_content rows groups g Hg Hgin')
      as (k' & objs' & _ & Hobjs' & ->).
    now exists k', objs'.
  - now apply (group_answers_ids rows groups).
Qed.

Lemma X3_count_is_rows_of_group_witness :
  exists out,
    fst (task_3_1 Fixture.w_tie) = Ok out /\
    Z.of_nat (List.length (filter (has_id (VNum 100)) out)) = 2%Z.
Proof.
  destruct (fst (task_3_1 Fixture.w_tie)) as [out|] eqn:E;
    [|exfalso; vm_compute in E; discriminate E].
  pose proof E as E'. vm_compute in E'. injection E' as <-.
  eexists. split; [reflexivity|].
  exact (X3_count_is_rows_of_group Fixture.w_tie _ _ (VNum 100) 2%Z E
           (or_introl eq_refl) eq_refl eq_refl).
Defined.

(** X4.  A criteria document whose [versions] is a sub-document, not an
    array, makes the run fail when its nested [definition] is neither an
    array nor null: if such a document is the first that [$lookup] attached
    to a row that reaches [$group], the inner [$arrayElemAt] of
    [definition] hands that value to the outer one, which rejects it, and
    [task_3_1] returns no rows at all. *)
Theorem X4_rejected_by_versions_document (w : world) (rows : list doc)
    (d c : doc) (cs : list doc) (v : doc) (x : value) :
  rows_at_group w = Ok rows -> In d rows ->
  field "criteria" d = Some (VArr (map VDoc (c :: cs))) ->
  field "versions" c = Some (VDoc v) ->
  field "definition" v = Some x ->
  is_array x = false -> is_null x = false ->
  exists msg, fst (task_3_1 w) = Err msg.
Proof.
  intros Hrows Hd Hc Hv Hx Harr Hnull.
  rewrite task_3_1_result, pipeline_split_group, run_app.
  fold (rows_at_group w). rewrite Hrows. cbn [bind run].
  destruct (group_answers rows) as [groups|msg] eqn:Hg;
    [|cbn [bind]; now exists msg].
  exfalso.
  destruct (group_answers_evaluates rows groups d Hg Hd) as (o & Ho).
  destruct (e_answer_fields d _ Ho) as (_ & _ & df & _ & _ & Hdf & _).
  destruct (e_definition_rejects d c cs v x Hc Hv Hx Harr Hnull) as (msg & Hmsg).
  rewrite Hmsg in Hdf. discriminate Hdf.
Qed.

Lemma X4_rejected_by_versions_document_witness :
  exists msg, fst (task_3_1 w_versions_object) = Err msg.
Proof.
  eapply (X4_rejected_by_versions_document w_versions_object _ _
            [("_id", VNum 1); ("value", VNum 5); ("label", VStr "L5");
             ("versions", VDoc [("definition", VStr "nested")])]
            [] [("definition", VStr "nested")] (VStr "nested")).
  - vm_compute. reflexivity.
  - left. reflexivity.
  - reflexivity.
  - reflexivity.
  - reflexivity.
  - reflexivity.
  - reflexivity.
Defined.

(** X5.  Stage 5 keeps a question row exactly when its category is 105 or
    147, one of its answers is below the ceiling, and, for category 105, no
    answer at or above the ceiling has a selected loop instance with value 50
    or text ADP.  The rule looks at the whole question: one excluding answer
    removes a category-105 question with all its answers, and never removes
    a category-147 question. *)
Theorem X5_stage5_exclusion_rule (cat : Z) (answers : list answer_spec) :
  q_question (mk_question_row cat answers) = question_kept cat answers /\
  (cat = 105%Z -> existsb answer_excludes answers = true ->
   match_rows q_question [mk_question_row cat answers] = []) /\
  (cat = 147%Z ->
   existsb (fun a => below_ceiling (a_value a)) answers = true ->
   match_rows q_question [mk_question_row cat answers]
   = [mk_question_row cat answers]).
Proof.
  assert (H : q_question (mk_question_row cat answers) = question_kept cat answers).
  { unfold q_question, qAnd, qNor, qOr, question_kept. cbn [forallb existsb].
    rewrite q_category_row, q_excluded_row, q_some_below_row.
    now rewrite orb_false_r, andb_true_r, andb_assoc. }
  split; [exact H|]. unfold match_rows. cbn [filter]. rewrite H.
  unfold question_kept. split.
  - intros -> ->. reflexivity.
  - intros -> ->. reflexivity.
Qed.

Lemma X5_stage5_exclusion_rule_witness :
  match_rows q_question
    [mk_question_row 105
       [Answer (Some 100%Z) [Loop 50 true "ADP"];
        Answer (Some 9500%Z) [Loop 7 false "ADP"; Loop 50 true "Other"]]] = [] /\
  match_rows q_question
    [mk_question_row 147
       [Answer (Some 100%Z) [Loop 50 true "ADP"];
        Answer (Some 9500%Z) [Loop 7 false "ADP"; Loop 50 true "Other"]]]
  = [mk_question_row 147
       [Answer (Some 100%Z) [Loop 50 true "ADP"];
        Answer (Some 9500%Z) [Loop 7 false "ADP"; Loop 50 true "Other"]]].
Proof.
  split.
  - exact (proj1 (proj2 (X5_stage5_exclusion_rule 105
             [Answer (Some 100%Z) [Loop 50 true "ADP"];
              Answer (Some 9500%Z) [Loop 7 false "ADP"; Loop 50 true "Other"]]))
             eq_refl eq_refl).
  - exact (proj2 (proj2 (X5_stage5_exclusion_rule 147
             [Answer (Some 100%Z) [Loop 50 true "ADP"];
              Answer (Some 9500%Z) [Loop 7 false "ADP"; Loop 50 true "Other"]]))
             eq_refl eq_refl).
Defined.

(** X6.  An expansion changes a row only under the expanded path: every
    field on a path that parts ways with it is in each output row what it
    was in the input row.  A value under the path that is neither an array
    nor null passes as one unchanged row, and null gives no row. *)
Theorem X6_unwind_frame (p q : path) (d r : doc) :
  (diverge p q = true -> In r (unwind_row p d) ->
   get_nested q r = get_nested q d) /\
  (forall v, get_nested p d = Some v -> is_array v = false -> is_null v = false ->
     unwind_row p d = [d]) /\
  (get_nested p d = Some VNull -> unwind_row p d = []).
Proof.
  split; [|split].
  - apply unwind_row_frame.
  - intros v Hv Ha Hn. unfold unwind_row. rewrite Hv.
    destruct v; try reflexivity; discriminate.
  - intros Hv. unfold unwind_row. now rewrite Hv.
Qed.

Lemma X6_unwind_frame_witness :
  get_nested ["contacts"; "id"]
    (set_nested ["contacts"; "questions"] (VNum 2)
       [("_id", VNum 1);
        ("contacts", VDoc [("id", VNum 11);
                          ("questions", VArr [VNum 1; VNum 2])])])
  = Some (VNum 11) /\
  unwind_row ["contacts"]
    [("_id", VNum 1); ("contacts", VDoc [("id", VNum 11)])]
  = [[("_id", VNum 1); ("contacts", VDoc [("id", VNum 11)])]].
Proof.
  split.
  - apply (proj1 (X6_unwind_frame ["contacts"; "questions"] ["contacts"; "id"]
                    [("_id", VNum 1);
                     ("contacts", VDoc [("id", VNum 11);
                                       ("questions", VArr [VNum 1; VNum 2])])]
                    _) eq_refl).
    right. left. reflexivity.
  - exact (proj1 (proj2 (X6_unwind_frame ["contacts"] []
                           [("_id", VNum 1); ("contacts", VDoc [("id", VNum 11)])]
                           []))
                 _ eq_refl eq_refl eq_refl).
Defined.

(** X8.  When no timer named [log] is running, a run of [task_3_1] that
    returns rows writes one line to the console, with the time the store
    took, and leaves no timer behind; a run that the store rejects writes
    nothing and leaves the timer [log] running. *)
Theorem X8_timer_released_or_leaked (w : world) :
  find_timer "log" (timers w) = None ->
  (forall out, fst (task_3_1 w) = Ok out ->
     timers (snd (task_3_1 w)) = timers w /\
     find_timer "log" (timers (snd (task_3_1 w))) = None /\
     console (snd (task_3_1 w)) = console w ++ [("log", latency w)]) /\
  (forall msg, fst (task_3_1 w) = Err msg ->
     find_timer "log" (timers (snd (task_3_1 w))) = Some (clock w) /\
     console (snd (task_3_1 w)) = console w).
Proof.
  intros Hfree. unfold task_3_1, console_time. rewrite Hfree.
  match goal with
  | |- context [aggregate ?w'] => destruct (aggregate w') as [res|e]
  end; cbn [fst snd].
  - split; [|discriminate]. intros out _.
    unfold console_timeEnd, await.
    cbn [timers find_timer String.eqb Ascii.eqb Bool.eqb drop_timer clock latency
         console].
    repeat split; [exact Hfree|]. do 3 f_equal. lia.
  - split; [discriminate|]. intros msg _. now split.
Qed.

Lemma X8_timer_released_or_leaked_witness :
  timers (snd (task_3_1 Fixture.w_tie)) = [] /\
  console (snd (task_3_1 Fixture.w_tie)) = [("log", 7%Z)] /\
  find_timer "log" (timers (snd (task_3_1 w_versions_object))) = Some 0%Z.
Proof.
  destruct (fst (task_3_1 Fixture.w_tie)) as [out|] eqn:E;
    [|exfalso; vm_compute in E; discriminate E].
  destruct (proj1 (X8_timer_released_or_leaked Fixture.w_tie eq_refl) out E)
    as (Ht & _ & Hc).
  destruct (fst (task_3_1 w_versions_object)) as [out'|msg] eqn:E';
    [exfalso; vm_compute in E'; discriminate E'|].
  destruct (proj2 (X8_timer_released_or_leaked w_versions_object eq_refl) msg E')
    as (Hl & _).
  split; [exact Ht|]. split; [exact Hc | exact Hl].
Defined.

(** X9.  Up to [$group] every document of the collection is handled on its
    own: the rows that reach [$group] from a collection are the rows from
    its first part followed by the rows from its second part, and a document
    that fails the [$match] of stage 1 adds no row. *)
Theorem X9_rows_per_document (cc a b : list doc) :
  exists ra rb,
    run (firstn 10 (pipeline cc)) a = Ok ra /\
    run (firstn 10 (pipeline cc)) b = Ok rb /\
    run (firstn 10 (pipeline cc)) (a ++ b) = Ok (ra ++ rb) /\
    (forallb (fun d => negb (q_index d)) a = true -> ra = []).
Proof.
  destruct (rows_at_group_ok (World a cc [] 0 0 [] [])) as (ra & Ha).
  destruct (rows_at_group_ok (World b cc [] 0 0 [] [])) as (rb & Hb).
  unfold rows_at_group in Ha, Hb. cbn [clientCriteria opportunities] in Ha, Hb.
  exists ra, rb. split; [exact Ha|]. split; [exact Hb|].
  rewrite run_first_ten in Ha, Hb. split.
  - rewrite run_first_ten, rows_at_loop_match_app.
    unfold match_rows in *. rewrite filter_app.
    destruct (mapM (project_row keep_list computed)
                (filter q_loop (rows_at_loop_match a))) as [pa|] eqn:Epa;
      cbn [bind] in Ha; [|discriminate Ha].
    destruct (mapM (project_row keep_list computed)
                (filter q_loop (rows_at_loop_match b))) as [pb|] eqn:Epb;
      cbn [bind] in Hb; [|discriminate Hb].
    rewrite (mapM_app _ _ _ pa pb Epa Epb). cbn [bind].
    unfold lookup_criteria, lookup_stage in *. now apply mapM_app.
  - intros Hnone.
    assert (Hf : match_rows q_index a = []) by now apply filter_none.
    unfold rows_at_loop_match in Ha. rewrite Hf in Ha.
    cbn in Ha. now injection Ha as <-.
Qed.

Lemma X9_rows_per_document_witness :
  exists ra rb,
    run (firstn 10 (pipeline (clientCriteria Fixture.w_tie)))
        [[("_id", VNum 9); ("initiativeId", VOid "000000000000000000000000")]]
    = Ok ra /\ ra = [] /\
    run (firstn 10 (pipeline (clientCriteria Fixture.w_tie)))
        (opportunities Fixture.w_tie) = Ok rb /\
    List.length rb = 2%nat /\
    run (firstn 10 (pipeline (clientCriteria Fixture.w_tie)))
        ([[("_id", VNum 9); ("initiativeId", VOid "000000000000000000000000")]]
         ++ opportunities Fixture.w_tie) = Ok (ra ++ rb).
Proof.
  destruct (X9_rows_per_document (clientCriteria Fixture.w_tie)
              [[("_id", VNum 9); ("initiativeId", VOid "000000000000000000000000")]]
              (opportunities Fixture.w_tie)) as (ra & rb & Ha & Hb & Hab & Hnone).
  exists ra, rb. split; [exact Ha|]. split; [now apply Hnone|].
  split; [exact Hb|]. split; [|exact Hab].
  vm_compute in Hb. injection Hb as <-. reflexivity.
Defined.

(** X10.  The second [$project] never fails.  In the row it produces,
    [criteria_value] is the question's [criteria_value], and the answer's
    only when the question's is null or missing; [clientWinner] is the
    winning vendor's [is_client]; and the row has no top-level field other
    than [_id], [contacts] and the three computed fields. *)
Theorem X10_computed_fields (d : doc) :
  exists r,
    project_row keep_list computed d = Ok r /\
    field "criteria_value" r
    = (if nullish (get_in ["contacts"; "questions"; "criteria_value"] d)
       then get_in ["contacts"; "questions"; "answers"; "criteria_value"] d
       else get_in ["contacts"; "questions"; "criteria_value"] d) /\
    field "clientWinner" r = get_in ["contacts"; "win_vendor"; "is_client"] d /\
    (forall k, field k r <> None ->
       In k ["_id"; "contacts"; "criteria_value"; "clientWinner"; "competitorWinner"]).
Proof.
  destruct (e_competitorWinner_total d) as (b & Hb).
  unfold project_row, computed. cbn [add_computed].
  unfold eIfNull, eField. cbn [bind].
  set (x := if nullish (get_in ["contacts"; "questions"; "criteria_value"] d)
            then get_in ["contacts"; "questions"; "answers"; "criteria_value"] d
            else get_in ["contacts"; "questions"; "criteria_value"] d).
  assert (Hx : (if nullish (get_in ["contacts"; "questions"; "criteria_value"] d)
                then Ok (get_in ["contacts"; "questions"; "answers"; "criteria_value"] d)
                else Ok (get_in ["contacts"; "questions"; "criteria_value"] d))
               = Ok x).
  { unfold x. now destruct (nullish _). }
  rewrite Hx. cbn [bind]. rewrite Hb. cbn [bind].
  eexists. split; [reflexivity|].
  assert (Hcv : field "criteria_value" (project_incl keep_list d) = None)
    by now apply include_fields_no_key.
  assert (Hcw : field "clientWinner" (project_incl keep_list d) = None)
    by now apply include_fields_no_key.
  split; [|split].
  - rewrite field_set_field_other by discriminate.
    rewrite field_set_opt_other by discriminate.
    now apply field_set_opt_same.
  - rewrite field_set_field_other by discriminate.
    apply field_set_opt_same.
    now rewrite field_set_opt_other by discriminate.
  - intros k Hk. cbn [In].
    apply field_set_field_some in Hk as [-> | Hk]; [tauto|].
    destruct (get_in ["contacts"; "win_vendor"; "is_client"] d) as [v|].
    + apply field_set_field_some in Hk as [-> | Hk]; [tauto|].
      destruct x as [v'|].
      * apply field_set_field_some in Hk as [-> | Hk]; [tauto|].
        destruct (project_incl_keep_keys k d Hk) as [-> | ->]; tauto.
      * destruct (project_incl_keep_keys k d Hk) as [-> | ->]; tauto.
    + destruct x as [v'|].
      * apply field_set_field_some in Hk as [-> | Hk]; [tauto|].
        destruct (project_incl_keep_keys k d Hk) as [-> | ->]; tauto.
      * destruct (project_incl_keep_keys k d Hk) as [-> | ->]; tauto.
Qed.

(** X11.  Every row that [task_3_1] returns carries under
    [answers.question_category] the category of its question, and that
    category is 105 or 147 (or an array that holds one of them): the category
    test of stage 5 is on a field that no later stage expands or drops. *)
Theorem X11_returned_category (w : world) (out : list doc) (r : doc) :
  fst (task_3_1 w) = Ok out -> In r out ->
  exists o v,
    field "answers" r = Some (VDoc o) /\
    field "question_category" o = Some v /\
    in_categories v = true.
Proof.
  intros Hout Hin.
  rewrite task_3_1_result, pipeline_split_group, run_app in Hout.
  fold (rows_at_group w) in Hout.
  destruct (rows_at_group w) as [rows|] eqn:Erows; cbn [bind] in Hout;
    [|discriminate Hout].
  destruct (returned_row_answers rows out r Hout Hin) as (d & e & Hd & He & Hr).
  destruct (rows_at_group_category w rows d Erows Hd) as (v & Hv & Hcat).
  unfold e_answer, eObj in He.
  destruct (obj_fields answer_fields d) as [o|] eqn:Eo; cbn [bind] in He;
    [|discriminate He].
  injection He as <-.
  destruct (obj_fields_lookup answer_fields d o "question_category"
              (eField p_category) answer_fields_nodup Eo eq_refl)
    as (x & Hx & Hf).
  unfold eField in Hx. injection Hx as <-.
  exists o, v. split; [exact Hr|]. split; [now rewrite Hf | exact Hcat].
Qed.

Lemma X11_returned_category_witness :
  exists r rest o v,
    fst (task_3_1 Fixture.w_two_answers) = Ok (r :: rest) /\
    field "answers" r = Some (VDoc o) /\
    field "question_category" o = Some v /\
    in_categories v = true.
Proof.
  destruct (fst (task_3_1 Fixture.w_two_answers)) as [out|] eqn:E;
    [|exfalso; vm_compute in E; discriminate E].
  pose proof E as E'. vm_compute in E'. injection E' as <-.
  destruct (X11_returned_category Fixture.w_two_answers _ _ E (or_introl eq_refl))
    as (o & v & Ho & Hv & Hc).
  eexists. eexists. exists o, v. split; [reflexivity|]. now repeat split.
Defined.
